(** * bot_controller.controller: the DotBot gateway controller

    A shallow embedding of [src/bot_controller/controller.py] and the
    properties of its fleet state, notification fan-out, outbound path and
    top-level [run].

    Conventions of the embedding.
    - Python [int] is [Z]; [float] timestamps and coordinates are exact
      rationals ([Qc]): rounding of float arithmetic is not modelled.
    - [self.dotbots] (a [dict] keyed by the hexadecimal address string) is a
      [gmap string DotBotModel]; no property below depends on the order in
      which a dict is iterated.
    - A Python exception is a value of [ExcClass]; code that can raise runs in
      the monad [M], which threads the [World] (the controller object, the
      wall clock, the event loop's queue of created tasks and the trace of
      calls made on collaborators) and keeps the state reached when an
      exception is raised, as Python does.
    - [time.time()] reads the [clock] of the world, which stands still while
      synchronous code runs and moves between the turns of the event loop.
    - Paths follow [posixpath] (the module [os.path] is on the platforms the
      default calibration directory "/tmp" belongs to). *)

From Stdlib Require Import ZArith QArith Qcanon Lia Ascii String.
From stdpp Require Import gmap strings list fin_maps numbers pretty.

#[local] Open Scope string_scope.
#[local] Open Scope Z_scope.
#[local] Open Scope list_scope.

(** ** Exceptions *)

(** The exception classes this module names or can meet, and any other class
    ([OtherException], a class deriving from none of the named ones). *)
Inductive ExcClass :=
  | SystemExit
  | SerialInterfaceException
  | SerialException
  | ConnectionClosedError
  | ConnectionRefusedError
  | OSError
  | IsADirectoryError
  | OverflowError
  | ValueError
  | KeyError
  | IndexError
  | UnboundLocalError
  | RuntimeError
  | ControllerException
  | OtherException (name : string).

#[global] Instance ExcClass_eq_dec : EqDecision ExcClass.
Proof. solve_decision. Defined.

(** [issubclass c d]: class [c] is [d] or derives from it.  pyserial's
    [SerialException] derives from [IOError], which is [OSError], and so do
    the builtins [ConnectionRefusedError] and [IsADirectoryError]. *)
Definition issubclass (c d : ExcClass) : bool :=
  bool_decide (c = d) ||
  match c, d with
  | SerialException, OSError => true
  | ConnectionRefusedError, OSError => true
  | IsADirectoryError, OSError => true
  | _, _ => false
  end.

(** [except (d1, ..., dn)] catches [c]. *)
Definition caught_by (handlers : list ExcClass) (c : ExcClass) : bool :=
  existsb (issubclass c) handlers.

Inductive outcome (A : Type) :=
  | Returned (a : A)
  | Raised (e : ExcClass).
Arguments Returned {A} a.
Arguments Raised {A} e.

#[global] Instance outcome_ret : MRet outcome := λ A a, Returned a.
#[global] Instance outcome_bind : MBind outcome := λ A B f x,
  match x with
  | Returned a => f a
  | Raised e => Raised e
  end.
#[global] Instance outcome_fmap : FMap outcome := λ A B f x,
  match x with
  | Returned a => Returned (f a)
  | Raised e => Raised e
  end.

(** ** Addresses: [int.to_bytes], [binascii.hexlify], [int(_, 16)] *)

(** The [len] big-endian base-256 digits of [n]. *)
Fixpoint be_bytes (len : nat) (n : Z) : list Z :=
  match len with
  | O => []
  | S k => (n / 256 ^ Z.of_nat k) mod 256 :: be_bytes k n
  end.

(** [n.to_bytes(len, "big")]: OverflowError for a negative [n] and for one
    that does not fit. *)
Definition int_to_bytes (len : nat) (n : Z) : outcome (list Z) :=
  if (0 <=? n) && (n <? 256 ^ Z.of_nat len)
  then Returned (be_bytes len n)
  else Raised OverflowError.

Definition hex_digit (d : Z) : ascii :=
  match d with
  | 0 => "0" | 1 => "1" | 2 => "2" | 3 => "3"
  | 4 => "4" | 5 => "5" | 6 => "6" | 7 => "7"
  | 8 => "8" | 9 => "9" | 10 => "a" | 11 => "b"
  | 12 => "c" | 13 => "d" | 14 => "e" | _ => "f"
  end%char.

(** [hexlify(bs).decode()]: two lower-case digits per byte. *)
Fixpoint hexlify (bs : list Z) : string :=
  match bs with
  | [] => ""
  | b :: rest => String (hex_digit (b / 16)) (String (hex_digit (b mod 16)) (hexlify rest))
  end.

(** The value of a base-16 digit, either case. *)
Definition hex_value (c : ascii) : option Z :=
  let n := Z.of_N (N_of_ascii c) in
  if (48 <=? n) && (n <=? 57) then Some (n - 48)
  else if (97 <=? n) && (n <=? 102) then Some (n - 87)
  else if (65 <=? n) && (n <=? 70) then Some (n - 55)
  else None.

(** Py_ISSPACE: space, \t, \n, \v, \f, \r. *)
Definition is_space (c : ascii) : bool :=
  let n := Z.of_N (N_of_ascii c) in
  (n =? 32) || ((9 <=? n) && (n <=? 13)).

Fixpoint all_space (s : string) : bool :=
  match s with
  | EmptyString => true
  | String c r => is_space c && all_space r
  end.

Fixpoint lstrip (s : string) : string :=
  match s with
  | EmptyString => EmptyString
  | String c r => if is_space c then lstrip r else s
  end.

(** The digits of a literal: single underscores may separate digits,
    [after_digit] tells whether the previous character was one; white space
    may follow the last digit. *)
Fixpoint int_digits (acc : Z) (after_digit : bool) (s : string) : option Z :=
  match s with
  | EmptyString => if after_digit then Some acc else None
  | String c r =>
      if Ascii.eqb c "_"
      then (if after_digit then int_digits acc false r else None)
      else match hex_value c with
           | Some d => int_digits (acc * 16 + d) true r
           | None => if after_digit && all_space s then Some acc else None
           end
  end.

(** After the sign: an optional [0x] or [0X], after which one underscore is
    allowed before the first digit. *)
Definition int_unsigned (s : string) : option Z :=
  match s with
  | String z (String x r) =>
      if Ascii.eqb z "0" && (Ascii.eqb x "x" || Ascii.eqb x "X")
      then match r with
           | String u r' => if Ascii.eqb u "_" then int_digits 0 false r'
                            else int_digits 0 false r
           | EmptyString => int_digits 0 false r
           end
      else int_digits 0 false s
  | _ => int_digits 0 false s
  end.

(** [int(s, 16)] on an ASCII string: leading white space, a sign, the
    literal; ValueError when [s] is not a literal. *)
Definition int_base16 (s : string) : outcome Z :=
  let r :=
    match lstrip s with
    | String c r =>
        if Ascii.eqb c "-" then Z.opp <$> int_unsigned r
        else if Ascii.eqb c "+" then int_unsigned r
        else int_unsigned (String c r)
    | EmptyString => int_unsigned EmptyString
    end in
  match r with
  | Some n => Returned n
  | None => Raised ValueError
  end.

(** The key under which a 64-bit address is kept:
    [hexlify(int(a).to_bytes(8, "big")).decode()]. *)
Definition address_key (a : Z) : outcome string :=
  hexlify <$> int_to_bytes 8 a.

(** [posixpath.join(a, b)]: an absolute [b] replaces what precedes it. *)
Definition startswith (p s : string) : bool := String.prefix p s.

Definition endswith (p s : string) : bool :=
  bool_decide (String.substring (String.length s - String.length p) (String.length p) s = p).

Definition os_path_join (a b : string) : string :=
  if startswith "/" b then b
  else if bool_decide (a = "") || endswith "/" a then a +:+ b
  else a +:+ "/" +:+ b.

(** ** Data model *)

Definition DEFAULT_CALIBRATION_DIR : string := "/tmp".

Record ControllerSettings := {
  port : string;
  baudrate : Z;
  dotbot_address : string;
  gw_address : string;
  swarm_id : string;
  calibration_dir : string;
  calibrate : bool;
  webbrowser : bool;
  verbose : bool;
}.

(** Modelled from the spec: the declarations of [bot_controller.protocol]
    are not in the source tree.  The header carries a destination and a source
    address, a swarm id and a version, in this order; a payload is a header, a
    type tag and the body ([values]).  Of the payload types this module names
    three; [OTHER_PAYLOAD] stands for every other member of the enumeration. *)
Record ProtocolHeader := {
  destination : Z;
  source : Z;
  header_swarm_id : Z;
  version : Z;
}.

Inductive PayloadType :=
  | CMD_MOVE_RAW
  | CMD_RGB_LED
  | LH2_RAW_DATA
  | OTHER_PAYLOAD (tag : Z).

#[global] Instance PayloadType_eq_dec : EqDecision PayloadType.
Proof. solve_decision. Defined.

Record ProtocolPayload := {
  header : ProtocolHeader;
  payload_type : PayloadType;
  values : list Z;
}.

(** Modelled from the spec: [bot_controller.models.DotBotModel] is not in the
    source tree; the three fields this module sets.  The optional fields of
    the model (last known position, LED colour) keep their defaults here. *)
Record DotBotModel := {
  address : string;
  last_seen : Qc;
  active : bool;
}.

(** The object [pickle.load] yields from the calibration file; opaque to this
    module, which only hands it to the solver. *)
Record Calibration := { calibration_blob : list Z }.

(** An observer handle.  [send_error] is what [send_text] does on it: [None]
    when the text is sent, [Some e] when the call raises [e]. *)
Record WebSocket := {
  ws_id : nat;
  send_error : option ExcClass;
}.

(** The serial handle; [write_error] is what [write] does on it. *)
Record SerialInterface := {
  serial_port : string;
  serial_baudrate : Z;
  write_error : option ExcClass;
}.

(** The argument of [json.dumps] in this module: a dict from strings to
    strings and numbers, in insertion order. *)
Inductive JsonValue :=
  | JString (s : string)
  | JNumber (x : Qc).

(** The text [json.dumps] returns, represented by the object it serialises
    (the serialisation of such objects is injective). *)
Inductive Message :=
  | json_dumps (obj : list (string * JsonValue)).

#[global] Instance JsonValue_eq_dec : EqDecision JsonValue.
Proof. solve_decision. Defined.
#[global] Instance Message_eq_dec : EqDecision Message.
Proof. solve_decision. Defined.

Definition reload_message : Message :=
  json_dumps [("cmd", JString "reload")].

Definition lh2_position_message (addr : string) (x y : Qc) : Message :=
  json_dumps [("cmd", JString "lh2_position"); ("address", JString addr);
              ("x", JNumber x); ("y", JNumber y)].

(** The activities [run] starts, in the order of its task list. *)
Inductive Activity :=
  | Web
  | OpenWebbrowser
  | StartSerial
  | DotbotsUpdate
  | DotbotsTableRefresh
  | Start.

(** A coroutine object handed to [asyncio.create_task] by the synchronous
    code of this module: always a call of [notify_clients]. *)
Inductive Coroutine :=
  | NotifyClients (message : Message).

Inductive Printed :=
  | PrintPayload (payload : ProtocolPayload)
  | PrintException (exc : ExcClass).

(** Calls made on the collaborators, in the order they are made. *)
Inductive Effect :=
  | Stdout (what : Printed)
  | SaveCameraPoints (samples : list Z) (path : string)
  | Notify (message : Message)
  | SendText (ws : WebSocket) (message : Message)
  | Sleep (seconds : Qc)
  | SerialWrite (data : list Z)
  | TaskCancel (task : Activity).

(** The controller object. *)
Record Controller := {
  dotbots : gmap string DotBotModel;
  self_header : ProtocolHeader;
  settings : ControllerSettings;
  serial : option SerialInterface;
  websockets : list WebSocket;
  calibration : option Calibration;
}.

(** The controller in its environment: the clock [time.time] reads, the
    coroutines given to [asyncio.create_task] that the event loop has not run
    yet (oldest first), and the calls made so far. *)
Record World := {
  self : Controller;
  clock : Qc;
  pending : list Coroutine;
  trace : list Effect;
}.

Definition set_dotbots (d : gmap string DotBotModel) (c : Controller) : Controller :=
  {| dotbots := d; self_header := self_header c; settings := settings c;
     serial := serial c; websockets := websockets c; calibration := calibration c |}.

Definition set_calibration_dir (d : string) (s : ControllerSettings) : ControllerSettings :=
  {| port := port s; baudrate := baudrate s; dotbot_address := dotbot_address s;
     gw_address := gw_address s; swarm_id := swarm_id s; calibration_dir := d;
     calibrate := calibrate s; webbrowser := webbrowser s; verbose := verbose s |}.

(** ** The monad of the controller's code *)

Definition M (A : Type) : Type := World → outcome A * World.

#[global] Instance M_ret : MRet M := λ A a w, (Returned a, w).
#[global] Instance M_bind : MBind M := λ A B f c w,
  match c w with
  | (Returned a, w') => f a w'
  | (Raised e, w') => (Raised e, w')
  end.

Definition lift {A} (x : outcome A) : M A := λ w, (x, w).
Definition raise {A} (e : ExcClass) : M A := λ w, (Raised e, w).
Definition get_self : M Controller := λ w, (Returned (self w), w).
Definition put_self (c : Controller) : M unit := λ w,
  (Returned (), {| self := c; clock := clock w; pending := pending w; trace := trace w |}).
Definition emit (e : Effect) : M unit := λ w,
  (Returned (), {| self := self w; clock := clock w; pending := pending w;
                   trace := trace w ++ [e] |}).
Definition when (b : bool) (c : M unit) : M unit := if b then c else mret ().

(** [try: body  except handlers as exc: handler exc]. *)
Definition try_except {A} (body : M A) (handlers : list ExcClass)
    (handler : ExcClass → M A) : M A := λ w,
  match body w with
  | (Raised e, w') => if caught_by handlers e then handler e w' else (Raised e, w')
  | r => r
  end.

Definition time_time : M Qc := λ w, (Returned (clock w), w).
Definition print (x : Printed) : M unit := emit (Stdout x).
Definition asyncio_sleep (seconds : Qc) : M unit := emit (Sleep seconds).

(** [asyncio.create_task(coro)]: the coroutine is queued on the event loop; it
    does not start before the code that created it gives control back. *)
Definition asyncio_create_task (coro : Coroutine) : M unit := λ w,
  (Returned (), {| self := self w; clock := clock w; pending := pending w ++ [coro];
                   trace := trace w |}).

(** [asyncio.gather] awaited on a list of coroutines: every awaitable runs to its end, one
    that raises does not cancel the others, and the first exception is the
    one the awaiting code gets. *)
Fixpoint asyncio_gather (coros : list (M unit)) : M unit :=
  match coros with
  | [] => mret ()
  | c :: rest => λ w,
      let (r, w1) := c w in
      let (r', w2) := asyncio_gather rest w1 in
      (match r with Raised e => Raised e | Returned _ => r' end, w2)
  end.

Definition send_text (websocket : WebSocket) (msg : Message) : M unit :=
  match send_error websocket with
  | None => emit (SendText websocket msg)
  | Some e => raise e
  end.

Definition serial_write (s : SerialInterface) (data : list Z) : M unit :=
  emit (SerialWrite data) ;;
  match write_error s with
  | None => mret ()
  | Some e => raise e
  end.

Definition save_camera_points (samples : list Z) (path : string) : M unit :=
  emit (SaveCameraPoints samples path).

(** ** ControllerBase *)

(** A path of the file system holds a file or a directory. *)
Inductive FsEntry :=
  | RegularFile (content : list Z)
  | Directory.

Definition os_path_exists (fs : gmap string FsEntry) (path : string) : bool :=
  bool_decide (is_Some (fs !! path)).

(** [open(path, "rb")] followed by reading the file. *)
Definition open_rb (fs : gmap string FsEntry) (path : string) : outcome (list Z) :=
  match fs !! path with
  | Some (RegularFile content) => Returned content
  | Some Directory => Raised IsADirectoryError
  | None => Raised (OtherException "FileNotFoundError")
  end.

Definition fatal_classes : list ExcClass :=
  [SystemExit; SerialInterfaceException; SerialException].

Definition all_tasks : list Activity :=
  [Web; OpenWebbrowser; StartSerial; DotbotsUpdate; DotbotsTableRefresh; Start].

Definition is_command (t : PayloadType) : bool :=
  bool_decide (t ∈ [CMD_MOVE_RAW; CMD_RGB_LED]).

Definition dict_values (d : gmap string DotBotModel) : list DotBotModel :=
  (map_to_list d).*2.

Definition three_seconds : Qc := Q2Qc 3.
Definition one_second : Qc := Q2Qc 1.
Definition tenth_of_second : Qc := Q2Qc (1 # 10).

Section ControllerBase.
(** What the modules outside the source tree provide: the protocol's
    version constant and encoder, the HDLC framing, the positioning solver
    of [bot_controller.lighthouse2] (a pure function to an optional
    coordinate pair) and [pickle.load]. *)
Variable PROTOCOL_VERSION : Z.
Variable to_bytes : ProtocolPayload → list Z.
Variable hdlc_encode : list Z → list Z.
Variable compute_coordinates : list Z → Calibration → option (Qc * Qc).
Variable pickle_load : list Z → outcome Calibration.

Definition calibration_path (settings : ControllerSettings) : string :=
  os_path_join (calibration_dir settings) "/tmp/calibration.out".

(** [ControllerBase.__init__]. *)
Definition __init__ (fs : gmap string FsEntry) (settings : ControllerSettings)
    : outcome Controller :=
  dst ← int_base16 (dotbot_address settings);
  src ← int_base16 (gw_address settings);
  swarm ← int_base16 (swarm_id settings);
  let header := {| destination := dst; source := src;
                   header_swarm_id := swarm; version := PROTOCOL_VERSION |} in
  cal ← (if os_path_exists fs (calibration_path settings)
         then content ← open_rb fs (calibration_path settings);
              Some <$> pickle_load content
         else Returned None);
  mret {| dotbots := ∅; self_header := header; settings := settings;
          serial := None; websockets := []; calibration := cal |}.

(** [_ws_send_safe]. *)
Definition _ws_send_safe (websocket : WebSocket) (msg : Message) : M unit :=
  try_except (send_text websocket msg) [ConnectionClosedError]
    (λ _, asyncio_sleep tenth_of_second).

(** [notify_clients]; the call itself is recorded in the trace. *)
Definition notify_clients (message : Message) : M unit :=
  emit (Notify message) ;;
  c ← get_self;
  asyncio_gather (map (λ websocket, _ws_send_safe websocket message) (websockets c)).

(** The first loop of [_dotbots_update]: the clock is read for every
    record. *)
Fixpoint collect_stale (ds to_remove : list DotBotModel) : M (list DotBotModel) :=
  match ds with
  | [] => mret to_remove
  | dotbot :: rest =>
      now ← time_time;
      collect_stale rest
        (if bool_decide (last_seen dotbot + three_seconds < now)%Qc
         then to_remove ++ [dotbot] else to_remove)
  end.

(** [self.dotbots.pop(key)]: KeyError for a missing key. *)
Definition dotbots_pop (key : string) : M DotBotModel :=
  c ← get_self;
  match dotbots c !! key with
  | Some d => put_self (set_dotbots (delete key (dotbots c)) c) ;; mret d
  | None => raise KeyError
  end.

Fixpoint pop_all (to_remove : list DotBotModel) : M unit :=
  match to_remove with
  | [] => mret ()
  | dotbot :: rest => dotbots_pop (address dotbot) ;; pop_all rest
  end.

(** One turn of the [while 1] loop of [_dotbots_update]. *)
Definition _dotbots_update : M unit :=
  c ← get_self;
  to_remove ← collect_stale (dict_values (dotbots c)) [];
  pop_all to_remove ;;
  when (bool_decide (to_remove ≠ [])) (notify_clients reload_message) ;;
  asyncio_sleep one_second.

(** [handle_received_payload]. *)
Definition handle_received_payload (payload : ProtocolPayload) : M unit :=
  if is_command (payload_type payload) then mret ()
  else
    c ← get_self;
    when (verbose (settings c)) (print (PrintPayload payload)) ;;
    source ← lift (address_key (source (header payload)));
    now ← time_time;
    source_int ← lift (int_base16 source);
    let dotbot := {| address := source; last_seen := now;
                     active := bool_decide (source_int = destination (self_header c)) |} in
    when (bool_decide (payload_type payload = LH2_RAW_DATA))
      (when (calibrate (settings c))
         (save_camera_points (values payload)
            (os_path_join (calibration_dir (settings c)) "calibration.csv")) ;;
       match calibration c with
       | Some cal =>
           match compute_coordinates (values payload) cal with
           | Some (x, y) =>
               asyncio_create_task
                 (NotifyClients (lh2_position_message (address dotbot) x y))
           | None => mret ()
           end
       | None => mret ()
       end) ;;
    c ← get_self;
    when (bool_decide (dotbots c !! source = None))
      (asyncio_create_task (NotifyClients reload_message)) ;;
    c ← get_self;
    put_self (set_dotbots (<[address dotbot := dotbot]> (dotbots c)) c).

(** [send_payload]. *)
Definition send_payload (payload : ProtocolPayload) : M unit :=
  destination ← lift (address_key (destination (header payload)));
  c ← get_self;
  if bool_decide (dotbots c !! destination = None) then mret ()
  else match serial c with
       | Some s => serial_write s (hdlc_encode (to_bytes payload))
       | None => mret ()
       end.

(** [run].  [init] is the variant's [init] method; [gathered] is how the
    awaited [asyncio.gather] over the six tasks resumes [run]: it returns
    when every task has finished, and raises the exception of the first
    task that fails.  Until the task list is bound, the handler's loop over
    it fails with UnboundLocalError. *)
Definition run (init : M unit) (gathered : outcome unit) : M unit :=
  tasks ← try_except (init ;; mret all_tasks) fatal_classes
             (λ exc, print (PrintException exc) ;; raise UnboundLocalError);
  try_except (lift gathered) fatal_classes
    (λ exc, print (PrintException exc) ;;
            foldr (λ task rest, emit (TaskCancel task) ;; rest) (mret ()) tasks).

(** *** The event loop *)

Definition resume (coro : Coroutine) : M unit :=
  match coro with
  | NotifyClients message => notify_clients message
  end.

(** The loop runs the oldest created task; an exception the task ends with
    stays in the task object. *)
Definition loop_step (w : World) : option World :=
  match pending w with
  | [] => None
  | coro :: rest =>
      Some (resume coro {| self := self w; clock := clock w;
                           pending := rest; trace := trace w |}).2
  end.

(** The state after the loop has run [n] of the created tasks (all of them
    when fewer are left). *)
Fixpoint loop_run (n : nat) (w : World) : World :=
  match n with
  | O => w
  | S k => match loop_step w with
           | Some w' => loop_run k w'
           | None => w
           end
  end.

End ControllerBase.

(** ** Vocabulary of the statements *)

(** The value of big-endian base-256 digits, continuing from [acc]. *)
Definition be_value (bs : list Z) (acc : Z) : Z :=
  fold_left (λ a b, a * 256 + b) bs acc.

(** Every record is kept under its own address. *)
Definition own_address (d : gmap string DotBotModel) : Prop :=
  map_Forall (λ key dotbot, address dotbot = key) d.

(** A record not heard of for more than three seconds at time [now]. *)
Definition stale (now : Qc) (dotbot : DotBotModel) : Prop :=
  (last_seen dotbot + three_seconds < now)%Qc.

#[global] Instance stale_dec now dotbot : Decision (stale now dotbot).
Proof. unfold stale. apply _. Defined.

(** The messages [notify_clients] was called with, in a run of calls. *)
Definition notifications (evs : list Effect) : list Message :=
  flat_map (λ e, match e with Notify m => [m] | _ => [] end) evs.

(** The data handed to the transport's [write]. *)
Definition serial_writes (evs : list Effect) : list (list Z) :=
  flat_map (λ e, match e with SerialWrite data => [data] | _ => [] end) evs.

(** The messages of the created tasks. *)
Definition task_messages (coros : list Coroutine) : list Message :=
  map (λ c, match c with NotifyClients m => m end) coros.

Definition is_position_update (m : Message) : bool :=
  match m with
  | json_dumps ((k, JString v) :: _) =>
      bool_decide (k = "cmd") && bool_decide (v = "lh2_position")
  | _ => false
  end.

Definition is_reload (m : Message) : bool := bool_decide (m = reload_message).

(** A call that carries the reload message to the observers. *)
Definition carries_reload (e : Effect) : bool :=
  match e with
  | Notify m | SendText _ m => is_reload m
  | _ => false
  end.

(** The reload message has left the controller in state [w]. *)
Definition reload_observable (w : World) : bool :=
  existsb carries_reload (trace w).

(** What [_ws_send_safe] does on one handle. *)
Definition delivery (msg : Message) (ws : WebSocket) : list Effect :=
  match send_error ws with
  | None => [SendText ws msg]
  | Some e => if caught_by [ConnectionClosedError] e
              then [Sleep tenth_of_second] else []
  end.

(** The handle's failure is one [_ws_send_safe] handles. *)
Definition tolerated (ws : WebSocket) : Prop :=
  ∀ e, send_error ws = Some e → e = ConnectionClosedError.

(** The world after further calls [evs]. *)
Definition with_trace (w : World) (evs : list Effect) : World :=
  {| self := self w; clock := clock w; pending := pending w; trace := trace w ++ evs |}.

(** How the gathered sends end: with the exception of the first handle, in
    list order, whose failure [_ws_send_safe] does not handle. *)
Fixpoint gathered_sends (wss : list WebSocket) : outcome unit :=
  match wss with
  | [] => Returned ()
  | ws :: rest =>
      match send_error ws with
      | Some e => if caught_by [ConnectionClosedError] e then gathered_sends rest
                  else Raised e
      | None => gathered_sends rest
      end
  end.

(** The record the handler builds for the source [key] of [payload]. *)
Definition heard (w : World) (payload : ProtocolPayload) (key : string) : DotBotModel :=
  {| address := key; last_seen := clock w;
     active := bool_decide (source (header payload) = destination (self_header (self w))) |}.

(** The calls a telemetry payload causes in the handler itself. *)
Definition handler_calls (c : Controller) (payload : ProtocolPayload) : list Effect :=
  (if verbose (settings c) then [Stdout (PrintPayload payload)] else []) ++
  (if bool_decide (payload_type payload = LH2_RAW_DATA) && calibrate (settings c)
   then [SaveCameraPoints (values payload)
           (os_path_join (calibration_dir (settings c)) "calibration.csv")]
   else []).

(** The position-update task a payload gives rise to. *)
Definition position_tasks (compute_coordinates : list Z → Calibration → option (Qc * Qc))
    (c : Controller) (payload : ProtocolPayload) (key : string) : list Coroutine :=
  if bool_decide (payload_type payload = LH2_RAW_DATA) then
    match calibration c with
    | Some cal =>
        match compute_coordinates (values payload) cal with
        | Some (x, y) => [NotifyClients (lh2_position_message key x y)]
        | None => []
        end
    | None => []
    end
  else [].

Definition reload_tasks (c : Controller) (key : string) : list Coroutine :=
  if bool_decide (dotbots c !! key = None) then [NotifyClients reload_message] else [].

(** The calls of one created task once the loop runs it. *)
Definition task_calls (c : Controller) (coro : Coroutine) : list Effect :=
  match coro with
  | NotifyClients m => Notify m :: flat_map (delivery m) (websockets c)
  end.

(** The active flag of a record tells whether its address is the destination
    of header [h]. *)
Definition flagged_by (h : ProtocolHeader) (dotbot : DotBotModel) : Prop :=
  active dotbot = true ↔ int_base16 (address dotbot) = Returned (destination h).

Definition well_flagged (c : Controller) : Prop :=
  map_Forall (λ _ dotbot, flagged_by (self_header c) dotbot) (dotbots c).

(** The world with fleet state [d]. *)
Definition with_dotbots (w : World) (d : gmap string DotBotModel) : World :=
  {| self := set_dotbots d (self w); clock := clock w; pending := pending w;
     trace := trace w |}.

(** The records left by popping the addresses of [l] one after the other. *)
Definition popped (l : list DotBotModel) (d : gmap string DotBotModel)
    : gmap string DotBotModel :=
  foldl (λ m dotbot, delete (address dotbot) m) d l.

(** ** Example configurations *)

Definition example_settings : ControllerSettings :=
  {| port := "/dev/ttyACM0"; baudrate := 1000000;
     dotbot_address := "0000000000000001"; gw_address := "0000000000000002";
     swarm_id := "0000"; calibration_dir := DEFAULT_CALIBRATION_DIR;
     calibrate := false; webbrowser := false; verbose := false |}.

Definition example_header (dst src : Z) : ProtocolHeader :=
  {| destination := dst; source := src; header_swarm_id := 0; version := 1 |}.

(** Stand-ins for the collaborators, to run the model on. *)
Definition example_to_bytes (payload : ProtocolPayload) : list Z :=
  be_bytes 8 (destination (header payload)) ++ be_bytes 8 (source (header payload))
  ++ values payload.

Definition example_hdlc_encode (data : list Z) : list Z := 126 :: data ++ [126].

Definition example_solver (samples : list Z) (cal : Calibration) : option (Qc * Qc) :=
  match samples with
  | [] => None
  | _ => Some (Q2Qc (21 # 2), Q2Qc (16 # 5))
  end.

Definition example_pickle_load (content : list Z) : outcome Calibration :=
  Returned {| calibration_blob := content |}.

Definition healthy_observer : WebSocket := {| ws_id := 1; send_error := None |}.
Definition closed_observer : WebSocket :=
  {| ws_id := 2; send_error := Some ConnectionClosedError |}.
Definition broken_observer : WebSocket :=
  {| ws_id := 3; send_error := Some RuntimeError |}.
Definition other_observer : WebSocket := {| ws_id := 4; send_error := None |}.

Definition example_controller (d : gmap string DotBotModel) (wss : list WebSocket)
    : Controller :=
  {| dotbots := d; self_header := example_header 1 2; settings := example_settings;
     serial := None; websockets := wss;
     calibration := Some {| calibration_blob := [] |} |}.

Definition example_world (d : gmap string DotBotModel) (wss : list WebSocket) : World :=
  {| self := example_controller d wss; clock := Q2Qc 10; pending := []; trace := [] |}.

(** Nobody heard of yet, one observer. *)
Definition quiet_world : World := example_world ∅ [healthy_observer].

(** Three observers, the second with a failure that is not a closed
    connection. *)
Definition crowded_world : World :=
  example_world ∅ [healthy_observer; broken_observer; other_observer].

Definition first_dotbot : DotBotModel :=
  {| address := "0000000000000001"; last_seen := Q2Qc 9; active := true |}.
Definition second_dotbot : DotBotModel :=
  {| address := "0000000000000002"; last_seen := Q2Qc 1; active := false |}.
Definition third_dotbot : DotBotModel :=
  {| address := "0000000000000003"; last_seen := Q2Qc 2; active := false |}.

(** The first robot is known; the serial port was never opened. *)
Definition registered_world : World :=
  example_world {[ "0000000000000001" := first_dotbot ]} [healthy_observer].

(** At time 10, the second and third robots were last heard of at 1 and 2. *)
Definition aging_world : World :=
  example_world
    (<["0000000000000001" := first_dotbot]>
       (<["0000000000000002" := second_dotbot]>
          {[ "0000000000000003" := third_dotbot ]}))
    [healthy_observer; closed_observer].

(** Positioning samples from robot 1. *)
Definition position_payload : ProtocolPayload :=
  {| header := example_header 0 1; payload_type := LH2_RAW_DATA; values := [7; 8; 9] |}.

(** A file system that holds a calibration file, and the directory /srv. *)
Definition calibrated_fs : gmap string FsEntry :=
  <["/tmp/calibration.out" := RegularFile [1; 2; 3]]> {[ "/srv" := Directory ]}.

(** A variant whose [init] has nothing to do. *)
Definition example_init : M unit := mret ().

(** A movement command for robot 1. *)
Definition move_payload : ProtocolPayload :=
  {| header := example_header 1 2; payload_type := CMD_MOVE_RAW; values := [0; 50; 0; 50] |}.

(** ** The rest of the module *)

Definition set_serial (s : option SerialInterface) (c : Controller) : Controller :=
  {| dotbots := dotbots c; self_header := self_header c; settings := settings c;
     serial := s; websockets := websockets c; calibration := calibration c |}.

(** The world with controller object [c]. *)
Definition with_self (w : World) (c : Controller) : World :=
  {| self := c; clock := clock w; pending := pending w; trace := trace w |}.

(** The world when the clock reads [now]. *)
Definition with_clock (w : World) (now : Qc) : World :=
  {| self := self w; clock := now; pending := pending w; trace := trace w |}.

(** *** The registry of controller classes *)

(** A concrete controller class, as the factory uses it: its constructor. *)
Definition ControllerClass : Type := ControllerSettings → outcome Controller.

(** [register_controller]; the module-level dict [CONTROLLERS] is passed
    in and returned. *)
Definition register_controller (type_ : string) (cls : ControllerClass)
    (CONTROLLERS : gmap string ControllerClass) : gmap string ControllerClass :=
  <[type_ := cls]> CONTROLLERS.

(** [controller_factory]. *)
Definition controller_factory (CONTROLLERS : gmap string ControllerClass)
    (type_ : string) (settings : ControllerSettings) : outcome Controller :=
  match CONTROLLERS !! type_ with
  | None => Raised ControllerException
  | Some cls => cls settings
  end.

(** The registrations of a program, applied in order to the empty dict the
    module starts with. *)
Definition registered (regs : list (string * ControllerClass))
    : gmap string ControllerClass :=
  foldl (λ CONTROLLERS reg, register_controller reg.1 reg.2 CONTROLLERS) ∅ regs.

(** *** Waiting for the web server *)

(** The calls of [_open_webbrowser]. *)
Inductive ProbeEffect :=
  | ProbeSleep (seconds : Qc)
  | WriterClose
  | WebbrowserOpen (url : string).

(** The [while 1] loop of [_open_webbrowser].  [attempts] lists what the
    successive calls of [asyncio.open_connection] do: [None] when the
    connection is made, [Some e] when the call raises [e].  The result is
    [None] while the loop is still waiting for a connection after the
    listed attempts. *)
Fixpoint wait_for_server (attempts : list (option ExcClass))
    : option (outcome unit) * list ProbeEffect :=
  match attempts with
  | [] => (None, [])
  | None :: _ => (Some (Returned ()), [WriterClose])
  | Some e :: rest =>
      if caught_by [ConnectionRefusedError] e
      then let (r, calls) := wait_for_server rest in
           (r, ProbeSleep tenth_of_second :: calls)
      else (Some (Raised e), [])
  end.

(** [_open_webbrowser]. *)
Definition _open_webbrowser (c : Controller) (attempts : list (option ExcClass))
    : option (outcome unit) * list ProbeEffect :=
  match wait_for_server attempts with
  | (Some (Returned _), calls) =>
      (Some (Returned ()),
       calls ++ if webbrowser (settings c)
                then [WebbrowserOpen "http://localhost:8000/dotbots"] else [])
  | r => r
  end.

(** *** The table of known robots *)

(** A cell of the table: a text, or a float under the format [.3f], kept as
    the number it shows. *)
Inductive Cell :=
  | CellText (s : string)
  | CellFixed3 (x : Qc).

(** The [rich] table: its columns (header and style) and its rows. *)
Record Table := {
  table_columns : list (string * string);
  table_rows : list (list Cell);
}.

(** The format [<4]: left-aligned in a field of four characters. *)
Definition ljust4 (s : string) : string :=
  s +:+ String.concat "" (replicate (4 - String.length s) " ").

(** [str] of a boolean. *)
Definition str_bool (b : bool) : string := if b then "True" else "False".

(** The row of the record [dotbot], the [idx]-th of the dict. *)
Definition table_row (c : Controller) (idx : nat) (dotbot : DotBotModel)
    : outcome (list Cell) :=
  a ← int_base16 (address dotbot);
  mret [CellText (ljust4 (pretty idx)); CellText ("0x" +:+ address dotbot);
        CellFixed3 (last_seen dotbot);
        CellText (str_bool (bool_decide (a = destination (self_header c))))].

(** The loop over [enumerate(self.dotbots.values())], from index [idx]. *)
Fixpoint add_rows (c : Controller) (idx : nat) (ds : list DotBotModel)
    : outcome (list (list Cell)) :=
  match ds with
  | [] => Returned []
  | dotbot :: rest =>
      row ← table_row c idx dotbot;
      rows ← add_rows c (S idx) rest;
      mret (row :: rows)
  end.

(** The function [table] of [_dotbots_table_refresh]. *)
Definition table (c : Controller) : outcome Table :=
  if bool_decide (dotbots c = ∅)
  then Returned {| table_columns := []; table_rows := [] |}
  else
    rows ← add_rows c 0 (dict_values (dotbots c));
    mret {| table_columns := [("#", "cyan"); ("address", "magenta");
                              ("last seen", "green"); ("active", "green")];
            table_rows := rows |}.

(** *** Bytes from the serial port *)

Definition ProtocolPayloadParserException : ExcClass :=
  OtherException "ProtocolPayloadParserException".

(** The receiving side: the HDLC handler object, the frames reported on
    standard output as "Cannot parse payload", oldest first, and the world
    of the controller. *)
Record Receiver (H : Type) := {
  hdlc_handler : H;
  unparsed : list (list Z);
  world : World;
}.
Arguments hdlc_handler {H} _.
Arguments unparsed {H} _.
Arguments world {H} _.

Section Ingestion.
(** The HDLC handler and the payload parser are outside the source tree:
    the handler's [handle_byte], the test [state == HDLCState.READY], its
    [payload] property (the frame, and the handler after the read), the
    parser [ProtocolPayload.from_bytes] and the constructor of
    [SerialInterface] for a port and a baud rate. *)
Variable H : Type.
Variable hdlc_handle_byte : H → Z → H.
Variable hdlc_ready : H → bool.
Variable hdlc_payload : H → list Z * H.
Variable from_bytes : list Z → outcome ProtocolPayload.
Variable open_serial : string → Z → outcome SerialInterface.
Variable compute_coordinates : list Z → Calibration → option (Qc * Qc).

(** [handle_byte]. *)
Definition handle_byte (r : Receiver H) (byte : Z) : outcome unit * Receiver H :=
  let h := hdlc_handle_byte (hdlc_handler r) byte in
  if hdlc_ready h then
    let (payload, h') := hdlc_payload h in
    if bool_decide (payload = [])
    then (Returned (), {| hdlc_handler := h'; unparsed := unparsed r; world := world r |})
    else
      match from_bytes payload with
      | Raised e =>
          if caught_by [ProtocolPayloadParserException] e
          then (Returned (), {| hdlc_handler := h'; unparsed := unparsed r ++ [payload];
                                world := world r |})
          else (Raised e, {| hdlc_handler := h'; unparsed := unparsed r;
                             world := world r |})
      | Returned parsed =>
          let (res, w) := handle_received_payload compute_coordinates parsed (world r) in
          (res, {| hdlc_handler := h'; unparsed := unparsed r; world := w |})
      end
  else (Returned (), {| hdlc_handler := h; unparsed := unparsed r; world := world r |}).

(** The [while 1] loop of [_start_serial] on the bytes the queue delivers;
    it returns here when they are used up and the loop waits for more. *)
Fixpoint handle_bytes (r : Receiver H) (bytes : list Z) : outcome unit * Receiver H :=
  match bytes with
  | [] => (Returned (), r)
  | byte :: rest =>
      match handle_byte r byte with
      | (Returned _, r') => handle_bytes r' rest
      | (Raised e, r') => (Raised e, r')
      end
  end.

(** [_start_serial]. *)
Definition _start_serial (r : Receiver H) (bytes : list Z) : outcome unit * Receiver H :=
  match open_serial (port (settings (self (world r))))
                    (baudrate (settings (self (world r)))) with
  | Raised e => (Raised e, r)
  | Returned s =>
      handle_bytes
        {| hdlc_handler := hdlc_handler r; unparsed := unparsed r;
           world := with_self (world r) (set_serial (Some s) (self (world r))) |}
        bytes
  end.

End Ingestion.

(** *** Vocabulary of the further statements *)

(** Every record is kept under its own address, which is the key of a 64-bit
    address, and its active flag tells whether that address is the
    destination of the controller's header. *)
Definition fleet_ok (c : Controller) : Prop :=
  map_Forall (λ key dotbot,
    address dotbot = key ∧
    ∃ a, address_key a = Returned key ∧
         active dotbot = bool_decide (a = destination (self_header c)))
    (dotbots c).

(** The cells of a row after the index: address, last seen, active. *)
Definition shown (dotbot : DotBotModel) : list Cell :=
  [CellText ("0x" +:+ address dotbot); CellFixed3 (last_seen dotbot);
   CellText (str_bool (active dotbot))].

(** The sends of a run of calls. *)
Definition sends (evs : list Effect) : list (WebSocket * Message) :=
  flat_map (λ e, match e with SendText ws m => [(ws, m)] | _ => [] end) evs.

(** The samples handed to the capture sink, with the path. *)
Definition captures (evs : list Effect) : list (list Z * string) :=
  flat_map (λ e, match e with SaveCameraPoints v p => [(v, p)] | _ => [] end) evs.

Definition cancelled (evs : list Effect) : list Activity :=
  flat_map (λ e, match e with TaskCancel t => [t] | _ => [] end) evs.

Definition slept (evs : list Effect) : list Qc :=
  flat_map (λ e, match e with Sleep s => [s] | _ => [] end) evs.

Definition browser_opened (evs : list ProbeEffect) : list string :=
  flat_map (λ e, match e with WebbrowserOpen url => [url] | _ => [] end) evs.

(** *** Further example configurations *)

Definition example_serial : SerialInterface :=
  {| serial_port := "/dev/ttyACM0"; serial_baudrate := 1000000; write_error := None |}.

(** The quiet world once the serial port is open. *)
Definition open_world : World :=
  with_self quiet_world (set_serial (Some example_serial) (self quiet_world)).

(** Positioning samples with addresses of 65 bits. *)
Definition oversized_payload : ProtocolPayload :=
  {| header := example_header (2 ^ 64) (2 ^ 64); payload_type := LH2_RAW_DATA;
     values := [] |}.

(** Settings whose robot address is not a number. *)
Definition bad_settings : ControllerSettings :=
  {| port := "/dev/ttyACM0"; baudrate := 1000000;
     dotbot_address := "dotbot"; gw_address := "0000000000000002";
     swarm_id := "0000"; calibration_dir := DEFAULT_CALIBRATION_DIR;
     calibrate := false; webbrowser := false; verbose := false |}.

(** What the constructor builds from the example settings, for protocol
    version 1, when there is no calibration file. *)
Definition built_controller : Controller :=
  {| dotbots := ∅;
     self_header := {| destination := 1; source := 2; header_swarm_id := 0;
                       version := 1 |};
     settings := example_settings; serial := None; websockets := [];
     calibration := None |}.

Definition built_world : World :=
  {| self := built_controller; clock := Q2Qc 0; pending := []; trace := [] |}.

(** A variant whose [init] finds no serial port. *)
Definition failing_init : M unit := raise SerialException.

(** Stand-ins for the HDLC handler (frames end with the byte 126), the
    parser (a frame is a type tag and a source address; the tag 255 is
    unknown to the enumeration) and the serial port. *)
Definition example_hdlc_handle_byte (h : list Z) (byte : Z) : list Z := h ++ [byte].

Definition example_hdlc_ready (h : list Z) : bool := bool_decide (last h = Some 126).

Definition example_hdlc_payload (h : list Z) : list Z * list Z :=
  (take (length h - 1) h, []).

Definition example_from_bytes (frame : list Z) : outcome ProtocolPayload :=
  match frame with
  | [tag; src] =>
      if tag =? 255 then Raised ValueError
      else Returned {| header := example_header 0 src;
                       payload_type := OTHER_PAYLOAD tag; values := [] |}
  | _ => Raised ProtocolPayloadParserException
  end.

Definition example_open_serial (port : string) (baud : Z) : outcome SerialInterface :=
  Returned {| serial_port := port; serial_baudrate := baud; write_error := None |}.

Definition example_receiver : Receiver (list Z) :=
  {| hdlc_handler := []; unparsed := []; world := quiet_world |}.

(** * Properties *)

(** ** Addresses *)

Lemma nibble_cases (d : Z) :
  0 ≤ d < 16 →
  d = 0 ∨ d = 1 ∨ d = 2 ∨ d = 3 ∨ d = 4 ∨ d = 5 ∨ d = 6 ∨ d = 7 ∨
  d = 8 ∨ d = 9 ∨ d = 10 ∨ d = 11 ∨ d = 12 ∨ d = 13 ∨ d = 14 ∨ d = 15.
Proof. lia. Qed.

Ltac each_nibble d H :=
  destruct (nibble_cases d H) as
    [->|[->|[->|[->|[->|[->|[->|[->|[->|[->|[->|[->|[->|[->|[->| ->]]]]]]]]]]]]]]].

(** A digit [hexlify] writes is read back by [int], and is none of the
    characters [int] treats specially. *)
Lemma hex_digit_plain (d : Z) :
  0 ≤ d < 16 →
  hex_value (hex_digit d) = Some d ∧
  is_space (hex_digit d) = false ∧
  Ascii.eqb (hex_digit d) "_" = false ∧
  Ascii.eqb (hex_digit d) "-" = false ∧
  Ascii.eqb (hex_digit d) "+" = false ∧
  Ascii.eqb (hex_digit d) "x" = false ∧
  Ascii.eqb (hex_digit d) "X" = false.
Proof. intros H. each_nibble d H; by vm_compute. Qed.

Lemma int_digits_hexlify (bs : list Z) : ∀ acc,
  Forall (λ b, 0 ≤ b < 256) bs →
  int_digits acc true (hexlify bs) = Some (be_value bs acc).
Proof.
  induction bs as [|b bs IH]; intros acc Hbs; [done|].
  inversion_clear Hbs as [|? ? Hb Hrest].
  assert (Hhi : 0 ≤ b / 16 < 16)
    by (split; [apply Z.div_pos; lia | apply Z.div_lt_upper_bound; lia]).
  assert (Hlo : 0 ≤ b mod 16 < 16) by (apply Z.mod_pos_bound; lia).
  destruct (hex_digit_plain _ Hhi) as (Hv1 & _ & Hu1 & _).
  destruct (hex_digit_plain _ Hlo) as (Hv2 & _ & Hu2 & _).
  cbn [hexlify int_digits]. rewrite Hu1, Hv1, Hu2, Hv2, IH by done.
  unfold be_value; cbn [fold_left]. do 2 f_equal.
  pose proof (Z.div_mod b 16). lia.
Qed.

Lemma int_base16_hexlify (b : Z) (bs : list Z) :
  Forall (λ b, 0 ≤ b < 256) (b :: bs) →
  int_base16 (hexlify (b :: bs)) = Returned (be_value (b :: bs) 0).
Proof.
  intros Hbs. pose proof (int_digits_hexlify (b :: bs) 0 Hbs) as Hd.
  inversion_clear Hbs as [|? ? Hb Hrest].
  assert (Hhi : 0 ≤ b / 16 < 16)
    by (split; [apply Z.div_pos; lia | apply Z.div_lt_upper_bound; lia]).
  assert (Hlo : 0 ≤ b mod 16 < 16) by (apply Z.mod_pos_bound; lia).
  destruct (hex_digit_plain _ Hhi) as (Hv1 & Hs1 & Hu1 & Hm1 & Hp1 & _).
  destruct (hex_digit_plain _ Hlo) as (Hv2 & _ & Hu2 & _ & _ & Hx2 & HX2).
  cbn [hexlify] in *. unfold int_base16. cbn [lstrip]. rewrite Hs1, Hm1, Hp1.
  unfold int_unsigned. rewrite Hx2, HX2, andb_false_r.
  cbn [int_digits] in *. rewrite Hu1, Hv1, Hu2, Hv2 in *.
  (* the first digit is read whether or not one was seen before it *)
  by rewrite Hd.
Qed.

Lemma be_bytes_range (len : nat) (n : Z) :
  Forall (λ b, 0 ≤ b < 256) (be_bytes len n).
Proof.
  induction len as [|k IH]; cbn [be_bytes]; constructor; [|done].
  apply Z.mod_pos_bound; lia.
Qed.

Lemma be_value_be_bytes (len : nat) (n : Z) : ∀ acc,
  be_value (be_bytes len n) acc = acc * 256 ^ Z.of_nat len + n mod 256 ^ Z.of_nat len.
Proof.
  induction len as [|k IH]; intros acc.
  - cbn. rewrite Z.mod_1_r. lia.
  - cbn [be_bytes]. unfold be_value in *. cbn [fold_left]. rewrite IH.
    rewrite Nat2Z.inj_succ, Z.pow_succ_r by lia.
    rewrite (Z.mul_comm 256 (256 ^ Z.of_nat k)).
    rewrite (Z.rem_mul_r n (256 ^ Z.of_nat k) 256) by lia.
    lia.
Qed.

(** The key of an address in range reads back as the address. *)
Lemma address_key_int (a : Z) :
  0 ≤ a < 2 ^ 64 →
  ∃ key, address_key a = Returned key ∧ int_base16 key = Returned a.
Proof.
  intros Ha. unfold address_key, int_to_bytes.
  replace (256 ^ Z.of_nat 8) with (2 ^ 64) by reflexivity.
  destruct (Z.leb_spec 0 a); [|lia]. destruct (Z.ltb_spec a (2 ^ 64)); [|lia].
  cbn [andb fmap outcome_fmap]. eexists; split; [reflexivity|].
  pose proof (be_bytes_range 8 a) as Hr.
  pose proof (be_value_be_bytes 8 a 0) as Hv.
  change (be_bytes 8 a) with
    ((a / 256 ^ 7) mod 256 :: be_bytes 7 a) in *.
  rewrite int_base16_hexlify by done. f_equal. rewrite Hv.
  replace (256 ^ Z.of_nat 8) with (2 ^ 64) by reflexivity.
  rewrite Z.mod_small; lia.
Qed.

Lemma address_key_inv (a : Z) (key : string) :
  address_key a = Returned key →
  0 ≤ a < 2 ^ 64 ∧ int_base16 key = Returned a.
Proof.
  intros Hk. assert (Ha : 0 ≤ a < 2 ^ 64).
  { unfold address_key, int_to_bytes in Hk.
    replace (256 ^ Z.of_nat 8) with (2 ^ 64) in Hk by reflexivity.
    destruct (Z.leb_spec 0 a); destruct (Z.ltb_spec a (2 ^ 64)); (done || lia). }
  split; [done|]. destruct (address_key_int a Ha) as (key' & Hk' & Hint).
  congruence.
Qed.

(** ** The fan-out *)

#[local] Arguments caught_by : simpl never.

Lemma with_trace_nil w : with_trace w [] = w.
Proof. destruct w; unfold with_trace; cbn. by rewrite app_nil_r. Qed.

Lemma with_trace_app w evs evs' :
  with_trace (with_trace w evs) evs' = with_trace w (evs ++ evs').
Proof. unfold with_trace; cbn. by rewrite app_assoc. Qed.

Lemma emit_with_trace e w : emit e w = (Returned (), with_trace w [e]).
Proof. reflexivity. Qed.

Lemma ws_send_safe_spec ws msg w :
  _ws_send_safe ws msg w =
    (match send_error ws with
     | Some e => if caught_by [ConnectionClosedError] e then Returned () else Raised e
     | None => Returned ()
     end, with_trace w (delivery msg ws)).
Proof.
  unfold _ws_send_safe, try_except, send_text, delivery.
  destruct (send_error ws) as [e|]; cbn; [|done].
  destruct (caught_by _ e); cbn; [done|]. by rewrite with_trace_nil.
Qed.

Lemma gather_sends_spec msg wss : ∀ w,
  asyncio_gather (map (λ ws, _ws_send_safe ws msg) wss) w =
    (gathered_sends wss, with_trace w (flat_map (delivery msg) wss)).
Proof.
  induction wss as [|ws wss IH]; intros w; cbn [map asyncio_gather flat_map gathered_sends].
  - by rewrite with_trace_nil.
  - rewrite ws_send_safe_spec, IH, with_trace_app.
    destruct (send_error ws) as [e|]; [destruct (caught_by _ e)|]; done.
Qed.

Lemma notify_clients_spec msg w :
  notify_clients msg w =
    (gathered_sends (websockets (self w)),
     with_trace w (Notify msg :: flat_map (delivery msg) (websockets (self w)))).
Proof.
  unfold notify_clients, mbind, M_bind, get_self.
  rewrite emit_with_trace, gather_sends_spec, with_trace_app. done.
Qed.

Lemma caught_connection_closed e :
  caught_by [ConnectionClosedError] e = true ↔ e = ConnectionClosedError.
Proof.
  unfold caught_by, issubclass; cbn [existsb]. rewrite orb_false_r.
  split.
  - intros H. apply orb_prop in H as [H|H]; [by apply bool_decide_eq_true in H|].
    by destruct e.
  - intros ->. done.
Qed.

Lemma gathered_sends_returned wss :
  gathered_sends wss = Returned () ↔ Forall tolerated wss.
Proof.
  induction wss as [|ws wss IH]; cbn [gathered_sends]; [by split; [constructor|]|].
  rewrite list.Forall_cons, <- IH. unfold tolerated.
  destruct (send_error ws) as [e|].
  - destruct (caught_by _ e) eqn:Hc.
    + apply caught_connection_closed in Hc as ->.
      split; [by intros H; split; [congruence|] | by intros [_ H]].
    + split; [done|]. intros [He _]. specialize (He e eq_refl).
      apply caught_connection_closed in He. congruence.
  - split; [by intros H | by intros [_ H]].
Qed.

(** ** Received payloads *)

Section Handler.
Variable compute_coordinates : list Z → Calibration → option (Qc * Qc).

Lemma handle_command payload w :
  is_command (payload_type payload) = true →
  handle_received_payload compute_coordinates payload w = (Returned (), w).
Proof. intros H. unfold handle_received_payload. by rewrite H. Qed.

(** The handler on a telemetry payload, in closed form. *)
Lemma handle_telemetry payload w key :
  is_command (payload_type payload) = false →
  address_key (source (header payload)) = Returned key →
  handle_received_payload compute_coordinates payload w =
    (Returned (),
     {| self := set_dotbots (<[key := heard w payload key]> (dotbots (self w))) (self w);
        clock := clock w;
        pending := pending w ++ position_tasks compute_coordinates (self w) payload key
                             ++ reload_tasks (self w) key;
        trace := trace w ++ handler_calls (self w) payload |}).
Proof.
  intros Hcmd Hkey. destruct (address_key_inv _ _ Hkey) as [_ Hint].
  unfold handle_received_payload. rewrite Hcmd.
  unfold mbind, M_bind, get_self, lift, time_time, when, print, save_camera_points,
    emit, asyncio_create_task, put_self, mret, M_ret.
  destruct w as [c now tasks evs]. cbn [self clock pending trace].
  unfold handler_calls, position_tasks, reload_tasks, heard.
  cbn [self clock pending trace address].
  destruct (verbose (settings c)); cbn [self clock pending trace];
    rewrite Hkey, Hint; cbn [self clock pending trace];
    destruct (bool_decide (payload_type payload = LH2_RAW_DATA));
    cbn [self clock pending trace andb];
    try destruct (calibrate (settings c)); cbn [self clock pending trace];
    try destruct (calibration c) as [cal|]; cbn [self clock pending trace];
    try destruct (compute_coordinates (values payload) cal) as [[x y]|];
    cbn [self clock pending trace];
    destruct (bool_decide (dotbots c !! key = None));
    cbn [self clock pending trace set_dotbots dotbots];
    rewrite ?app_nil_r, <- ?app_assoc; reflexivity.
Qed.
End Handler.

(** ** The event loop *)

Lemma loop_step_spec w coro rest :
  pending w = coro :: rest →
  loop_step w =
    Some {| self := self w; clock := clock w; pending := rest;
            trace := trace w ++ task_calls (self w) coro |}.
Proof.
  intros Hp. unfold loop_step. rewrite Hp. destruct coro as [m]. cbn [resume].
  by rewrite notify_clients_spec.
Qed.

(** Created tasks leave the controller object alone. *)
Lemma loop_run_self n : ∀ w, self (loop_run n w) = self w.
Proof.
  induction n as [|n IH]; intros w; [done|]. cbn [loop_run].
  destruct (pending w) as [|coro rest] eqn:Hp.
  - unfold loop_step. by rewrite Hp.
  - rewrite (loop_step_spec w coro rest Hp), IH. done.
Qed.

(** Once the loop has run every created task, each of them has made its
    calls, oldest task first. *)
Lemma loop_run_all w :
  loop_run (length (pending w)) w =
    {| self := self w; clock := clock w; pending := [];
       trace := trace w ++ flat_map (task_calls (self w)) (pending w) |}.
Proof.
  destruct w as [c now tasks evs]. cbn [self clock pending trace].
  revert evs. induction tasks as [|coro rest IH]; intros evs.
  - cbn. by rewrite app_nil_r.
  - cbn [length loop_run].
    rewrite (loop_step_spec {| self := c; clock := now; pending := coro :: rest;
                               trace := evs |} coro rest eq_refl).
    cbn [self clock pending trace].
    rewrite IH. cbn [flat_map]. by rewrite app_assoc.
Qed.

Lemma notifications_app evs evs' :
  notifications (evs ++ evs') = notifications evs ++ notifications evs'.
Proof. unfold notifications. by rewrite flat_map_app. Qed.

Lemma notifications_delivery msg wss :
  notifications (flat_map (delivery msg) wss) = [].
Proof.
  induction wss as [|ws wss IH]; [done|]. cbn [flat_map].
  rewrite notifications_app, IH, app_nil_r. unfold delivery.
  destruct (send_error ws) as [e|]; [destruct (caught_by _ e)|]; done.
Qed.

(** A created task is one call of [notify_clients]. *)
Lemma notifications_task_calls c coros :
  notifications (flat_map (task_calls c) coros) = task_messages coros.
Proof.
  induction coros as [|[m] coros IH]; [done|]. cbn [flat_map task_calls task_messages map].
  rewrite notifications_app. cbn [notifications flat_map app] in *.
  fold (notifications (flat_map (delivery m) (websockets c))).
  rewrite notifications_delivery. cbn [app]. by rewrite IH.
Qed.

Lemma notifications_handler_calls c payload :
  notifications (handler_calls c payload) = [].
Proof.
  unfold handler_calls.
  destruct (verbose _), (bool_decide _), (calibrate _); done.
Qed.

(** Once the loop has run the created tasks, [notify_clients] has been called
    once for each of them, in the order they were created. *)
Lemma loop_run_notifications w :
  notifications (trace (loop_run (length (pending w)) w))
    = notifications (trace w) ++ task_messages (pending w).
Proof.
  rewrite loop_run_all. cbn [trace].
  by rewrite notifications_app, notifications_task_calls.
Qed.

(** ** The outbound path *)

Section Outbound.
Variable to_bytes : ProtocolPayload → list Z.
Variable hdlc_encode : list Z → list Z.

Lemma send_payload_spec payload w key :
  address_key (destination (header payload)) = Returned key →
  send_payload to_bytes hdlc_encode payload w =
    match dotbots (self w) !! key, serial (self w) with
    | Some _, Some s =>
        (match write_error s with None => Returned () | Some e => Raised e end,
         with_trace w [SerialWrite (hdlc_encode (to_bytes payload))])
    | _, _ => (Returned (), w)
    end.
Proof.
  intros Hkey. unfold send_payload, mbind, M_bind, lift, get_self. rewrite Hkey.
  destruct (dotbots (self w) !! key) as [d|] eqn:Hd.
  - rewrite bool_decide_eq_false_2 by done.
    destruct (serial (self w)) as [s|]; [|done].
    unfold serial_write, mbind, M_bind. rewrite emit_with_trace.
    by destruct (write_error s).
  - by rewrite bool_decide_eq_true_2.
Qed.
End Outbound.

(** ** The top-level run *)

Lemma cancel_all_spec tasks w :
  foldr (λ task rest, emit (TaskCancel task) ;; rest) (mret ()) tasks w =
    (Returned (), with_trace w (map TaskCancel tasks)).
Proof.
  revert w. induction tasks as [|t tasks IH]; intros w; cbn [foldr map].
  - unfold mret, M_ret. by rewrite with_trace_nil.
  - unfold mbind, M_bind in *. rewrite emit_with_trace, IH, with_trace_app. done.
Qed.

Lemma run_spec init gathered w w1 :
  init w = (Returned (), w1) →
  run init gathered w =
    match gathered with
    | Returned _ => (Returned (), w1)
    | Raised exc =>
        if caught_by fatal_classes exc
        then (Returned (),
              with_trace w1 (Stdout (PrintException exc) :: map TaskCancel all_tasks))
        else (Raised exc, w1)
    end.
Proof.
  intros Hinit. unfold run, mbind at 1, M_bind at 1.
  unfold try_except at 1. unfold mbind at 1, M_bind at 1. rewrite Hinit.
  unfold mret at 1, M_ret at 1. unfold try_except, lift.
  destruct gathered as [[]|exc]; [done|].
  destruct (caught_by fatal_classes exc); [|done].
  unfold mbind, M_bind, print. rewrite emit_with_trace.
  pose proof (cancel_all_spec all_tasks (with_trace w1 [Stdout (PrintException exc)])) as Hc.
  unfold mbind, M_bind in Hc. rewrite Hc, with_trace_app. done.
Qed.

(** A failing [init] of a fatal class is printed, and the handler then trips
    over the task list that was never bound. *)
Lemma run_init_fatal init gathered exc w w1 :
  init w = (Raised exc, w1) →
  caught_by fatal_classes exc = true →
  run init gathered w =
    (Raised UnboundLocalError, with_trace w1 [Stdout (PrintException exc)]).
Proof.
  intros Hinit Hc. unfold run, mbind at 1, M_bind at 1.
  unfold try_except at 1. unfold mbind at 1, M_bind at 1. rewrite Hinit, Hc.
  unfold mbind, M_bind, print. rewrite emit_with_trace. done.
Qed.

(** An exception of any other class leaves [run] as it came, and no task is
    cancelled. *)
Lemma run_propagates_other init exc w w1 :
  init w = (Returned (), w1) →
  caught_by fatal_classes exc = false →
  run init (Raised exc) w = (Raised exc, w1).
Proof. intros Hinit Hc. by rewrite (run_spec _ _ _ _ Hinit), Hc. Qed.

(** ** Construction *)

Section Construction.
Variable PROTOCOL_VERSION : Z.
Variable pickle_load : list Z → outcome Calibration.

Lemma calibration_path_fixed settings :
  calibration_path settings = "/tmp/calibration.out".
Proof. reflexivity. Qed.

Lemma init_dotbots fs settings c :
  __init__ PROTOCOL_VERSION pickle_load fs settings = Returned c →
  dotbots c = ∅ ∧ serial c = None ∧ websockets c = [].
Proof.
  unfold __init__, mbind, outcome_bind, mret, outcome_ret.
  repeat case_match; intros [= <-]; done.
Qed.
End Construction.

(** ** Eviction *)

Lemma with_dotbots_same w : with_dotbots w (dotbots (self w)) = w.
Proof. by destruct w as [[] ? ? ?]. Qed.

Lemma with_dotbots_twice w d d' : with_dotbots (with_dotbots w d) d' = with_dotbots w d'.
Proof. done. Qed.

Lemma collect_stale_spec ds : ∀ to_remove w,
  collect_stale ds to_remove w =
    (Returned (to_remove ++ filter (stale (clock w)) ds), w).
Proof.
  induction ds as [|d ds IH]; intros acc w; cbn [collect_stale].
  - unfold mret, M_ret. by rewrite app_nil_r.
  - unfold mbind, M_bind, time_time. rewrite IH, filter_cons. unfold stale at 2.
    case_bool_decide; case_decide; try done. by rewrite <- app_assoc.
Qed.

Lemma lookup_popped l : ∀ d key,
  popped l d !! key = if decide (key ∈ address <$> l) then None else d !! key.
Proof.
  induction l as [|x l IH]; intros d key; cbn [popped foldl fmap list_fmap].
  - case_decide as H; [by apply elem_of_nil in H|done].
  - fold (popped l (delete (address x) d)). rewrite IH.
    destruct (decide (key ∈ address <$> l)) as [Hl|Hl];
      destruct (decide (key ∈ address x :: (address <$> l))) as [Hc|Hc].
    + done.
    + destruct Hc. by apply list_elem_of_further.
    + apply elem_of_cons in Hc as [->|Hc]; [apply lookup_delete_eq|done].
    + apply lookup_delete_ne. intros <-. apply Hc, list_elem_of_here.
Qed.

(** No pop fails when the addresses are distinct keys of the fleet state. *)
Lemma pop_all_spec l : ∀ w,
  NoDup (address <$> l) →
  (∀ dotbot, dotbot ∈ l → is_Some (dotbots (self w) !! address dotbot)) →
  pop_all l w = (Returned (), with_dotbots w (popped l (dotbots (self w)))).
Proof.
  induction l as [|x l IH]; intros w Hnd Hin; cbn [pop_all popped foldl].
  - unfold mret, M_ret. by rewrite with_dotbots_same.
  - cbn [fmap list_fmap] in Hnd. apply list.NoDup_cons in Hnd as [Hx Hnd].
    destruct (Hin x) as [dx Hdx]; [set_solver|].
    unfold mbind, M_bind, dotbots_pop, get_self. unfold mbind, M_bind. rewrite Hdx.
    unfold put_self, mret, M_ret. cbn [fst snd].
    fold (with_dotbots w (delete (address x) (dotbots (self w)))).
    rewrite IH; [done|done|].
    intros y Hy. cbn [with_dotbots self set_dotbots dotbots].
    rewrite lookup_delete_ne; [apply Hin; set_solver|].
    intros Heq. apply Hx. rewrite Heq. by apply list_elem_of_fmap_2.
Qed.

Lemma own_address_values d :
  own_address d → address <$> dict_values d = (map_to_list d).*1.
Proof.
  intros Hown. unfold dict_values. rewrite <- list_fmap_compose.
  apply Forall_fmap_ext_1, list.Forall_forall. intros [key dotbot] Hin.
  apply elem_of_map_to_list in Hin. exact (Hown key dotbot Hin).
Qed.

Lemma stale_addresses_NoDup d now :
  own_address d → NoDup (address <$> filter (stale now) (dict_values d)).
Proof.
  intros Hown. apply (sublist_NoDup _ (address <$> dict_values d)).
  - rewrite (own_address_values d Hown). apply NoDup_fst_map_to_list.
  - apply fmap_sublist, sublist_filter.
Qed.

Lemma elem_of_dict_values d dotbot :
  own_address d → dotbot ∈ dict_values d ↔ d !! address dotbot = Some dotbot.
Proof.
  intros Hown. unfold dict_values. rewrite list_elem_of_fmap. split.
  - intros ([key x] & -> & Hin). apply elem_of_map_to_list in Hin.
    cbn. by rewrite (Hown key x Hin).
  - intros H. exists (address dotbot, dotbot). split; [done|].
    by apply elem_of_map_to_list.
Qed.

(** Popping the stale records leaves exactly the others. *)
Lemma popped_stale d now :
  own_address d →
  popped (filter (stale now) (dict_values d)) d = filter (λ kd, ¬ stale now kd.2) d.
Proof.
  intros Hown. apply map_eq. intros key. rewrite lookup_popped.
  case_decide as Hin.
  - apply list_elem_of_fmap in Hin as (x & -> & Hx).
    apply list_elem_of_filter in Hx as [Hst Hx].
    apply elem_of_dict_values in Hx; [|done].
    symmetry. apply map_lookup_filter_None. right. intros y Hy. cbn.
    rewrite Hx in Hy. injection Hy as <-. tauto.
  - destruct (d !! key) as [x|] eqn:Hx.
    + symmetry. apply map_lookup_filter_Some. split; [done|]. cbn. intros Hst.
      apply Hin. apply list_elem_of_fmap. exists x.
      pose proof (Hown key x Hx) as Ha. split; [done|].
      apply list_elem_of_filter. split; [done|].
      apply elem_of_dict_values; [done|]. by rewrite Ha.
    + symmetry. apply map_lookup_filter_None. by left.
Qed.

(** Nothing is stale exactly when no record of the fleet state is. *)
Lemma no_stale_values d now :
  own_address d →
  filter (stale now) (dict_values d) = [] ↔ filter (λ kd, stale now kd.2) d = ∅.
Proof.
  intros Hown. split.
  - intros Hnil. apply map_eq. intros key. rewrite lookup_empty.
    apply map_lookup_filter_None.
    destruct (d !! key) as [x|] eqn:Hx; [right|by left].
    intros y [= <-] Hst. cbn in Hst.
    assert (x ∈ filter (stale now) (dict_values d)) as Hin.
    { apply list_elem_of_filter. split; [done|].
      apply elem_of_dict_values; [done|]. by rewrite (Hown key x Hx). }
    rewrite Hnil in Hin. by apply elem_of_nil in Hin.
  - intros Hempty. destruct (filter (stale now) (dict_values d)) as [|x l] eqn:Hf; [done|].
    assert (x ∈ filter (stale now) (dict_values d)) as Hin
      by (rewrite Hf; apply list_elem_of_here).
    apply list_elem_of_filter in Hin as [Hst Hx].
    apply elem_of_dict_values in Hx; [|done].
    assert (filter (λ kd, stale now kd.2) d !! address x = Some x) as Hl
      by (by apply map_lookup_filter_Some).
    rewrite Hempty in Hl. by rewrite lookup_empty in Hl.
Qed.

(** One turn of the eviction loop, in closed form. *)
Lemma dotbots_update_spec w :
  own_address (dotbots (self w)) →
  _dotbots_update w =
    let w1 := with_dotbots w (filter (λ kd, ¬ stale (clock w) kd.2) (dotbots (self w))) in
    if decide (filter (λ kd, stale (clock w) kd.2) (dotbots (self w)) = ∅)
    then (Returned (), with_trace w1 [Sleep one_second])
    else match gathered_sends (websockets (self w)) with
         | Returned _ =>
             (Returned (),
              with_trace w1 (task_calls (self w) (NotifyClients reload_message)
                             ++ [Sleep one_second]))
         | Raised e =>
             (Raised e, with_trace w1 (task_calls (self w) (NotifyClients reload_message)))
         end.
Proof.
  intros Hown. unfold _dotbots_update, mbind at 1, M_bind at 1, get_self at 1.
  unfold mbind at 1, M_bind at 1. rewrite collect_stale_spec. cbn [app].
  unfold mbind at 1, M_bind at 1.
  rewrite pop_all_spec.
  2: { by apply stale_addresses_NoDup. }
  2: { intros x [_ Hx]%list_elem_of_filter.
       apply elem_of_dict_values in Hx; [|done]. by rewrite Hx. }
  rewrite popped_stale by done. cbn zeta.
  set (w1 := with_dotbots w _).
  pose proof (no_stale_values (dotbots (self w)) (clock w) Hown) as Hnil.
  unfold mbind, M_bind, when, asyncio_sleep.
  case_bool_decide as Hrm; case_decide as Hem.
  - destruct Hrm. by apply Hnil.
  - rewrite notify_clients_spec.
    change (websockets (self w1)) with (websockets (self w)).
    cbn [task_calls]. destruct (gathered_sends (websockets (self w))) as [[]|e].
    + by rewrite emit_with_trace, with_trace_app.
    + done.
  - unfold mret, M_ret. by rewrite emit_with_trace.
  - destruct Hem. apply Hnil. by destruct (decide (filter (stale (clock w))
      (dict_values (dotbots (self w))) = [])).
Qed.

(** ** The invariant of the fleet state *)

Lemma own_address_empty : own_address ∅.
Proof. apply map_Forall_empty. Qed.

Lemma own_address_insert d dotbot :
  own_address d → own_address (<[address dotbot := dotbot]> d).
Proof. intros Hown. by apply map_Forall_insert_2. Qed.

Lemma own_address_filter (P : string * DotBotModel → Prop) `{!∀ x, Decision (P x)} d :
  own_address d → own_address (filter P d).
Proof.
  intros Hown key x Hx. apply map_lookup_filter_Some in Hx as [Hx _]. by apply Hown.
Qed.

Section Invariant.
Variable compute_coordinates : list Z → Calibration → option (Qc * Qc).

Lemma own_address_handle payload w :
  own_address (dotbots (self w)) →
  own_address (dotbots (self (handle_received_payload compute_coordinates payload w).2)).
Proof.
  intros Hown. destruct (is_command (payload_type payload)) eqn:Hcmd.
  - by rewrite handle_command.
  - destruct (address_key (source (header payload))) as [key|e] eqn:Hkey.
    + rewrite (handle_telemetry _ _ _ key) by done. cbn.
      by apply (own_address_insert _ (heard w payload key)).
    + unfold handle_received_payload. rewrite Hcmd.
      unfold mbind, M_bind, get_self, when, print, lift. rewrite Hkey.
      by destruct (verbose _).
Qed.

Lemma own_address_update w :
  own_address (dotbots (self w)) →
  own_address (dotbots (self (_dotbots_update w).2)).
Proof.
  intros Hown. rewrite dotbots_update_spec by done. cbn zeta.
  case_decide; [|destruct (gathered_sends _)]; cbn; by apply own_address_filter.
Qed.

(** The active flags stay right: the handler flags the record it inserts
    against the header, which nothing changes, and the eviction only
    removes records. *)
Lemma well_flagged_handle payload w :
  well_flagged (self w) →
  well_flagged (self (handle_received_payload compute_coordinates payload w).2).
Proof.
  intros Hflag. destruct (is_command (payload_type payload)) eqn:Hcmd.
  - by rewrite handle_command.
  - destruct (address_key (source (header payload))) as [key|e] eqn:Hkey.
    + rewrite (handle_telemetry _ _ _ key) by done.
      destruct (address_key_inv _ _ Hkey) as [_ Hint].
      unfold well_flagged. cbn. apply map_Forall_insert_2; [|done].
      unfold flagged_by. cbn. rewrite Hint, bool_decide_eq_true.
      split; [congruence | by intros [= ->]].
    + unfold handle_received_payload. rewrite Hcmd.
      unfold mbind, M_bind, get_self, when, print, lift. rewrite Hkey.
      by destruct (verbose _).
Qed.

Lemma well_flagged_update w :
  own_address (dotbots (self w)) →
  well_flagged (self w) →
  well_flagged (self (_dotbots_update w).2).
Proof.
  intros Hown Hflag. rewrite dotbots_update_spec by done. cbn zeta.
  case_decide; [|destruct (gathered_sends _)]; unfold well_flagged; cbn;
    intros key x [Hx _]%map_lookup_filter_Some; by apply (Hflag key).
Qed.
End Invariant.

(** * The claims *)

Section HandlerClaims.
Variable compute_coordinates : list Z → Calibration → option (Qc * Qc).

(** C6.  A movement or LED command payload is ignored: the handler returns
    with the whole world as it was, so no record of the fleet state is
    created, refreshed or changed, whatever the source address. *)
Theorem command_payload_ignored (payload : ProtocolPayload) (w : World) :
  payload_type payload = CMD_MOVE_RAW ∨ payload_type payload = CMD_RGB_LED →
  handle_received_payload compute_coordinates payload w = (Returned (), w) ∧
  dotbots (self (handle_received_payload compute_coordinates payload w).2)
    = dotbots (self w).
Proof.
  intros Hcmd.
  assert (handle_received_payload compute_coordinates payload w = (Returned (), w)) as ->.
  { apply handle_command. unfold is_command. by destruct Hcmd as [-> | ->]. }
  done.
Qed.

(** C8.  The record a telemetry payload inserts is stamped with the time of
    the insertion, and is active exactly when its address, read as a
    hexadecimal number, is the destination address of the controller's
    header. *)
Theorem inserted_record_stamped (payload : ProtocolPayload) (w : World) :
  is_command (payload_type payload) = false →
  0 ≤ source (header payload) < 2 ^ 64 →
  ∃ dotbot : DotBotModel,
    (handle_received_payload compute_coordinates payload w).1 = Returned () ∧
    dotbots (self (handle_received_payload compute_coordinates payload w).2)
      = <[address dotbot := dotbot]> (dotbots (self w)) ∧
    address_key (source (header payload)) = Returned (address dotbot) ∧
    last_seen dotbot = clock w ∧
    (active dotbot = true ↔
       int_base16 (address dotbot) = Returned (destination (self_header (self w)))).
Proof.
  intros Hcmd Hrange.
  destruct (address_key_int _ Hrange) as (key & Hkey & Hint).
  exists (heard w payload key).
  rewrite (handle_telemetry _ _ _ key Hcmd Hkey). cbn.
  repeat split; try done.
  - intros Hact. apply bool_decide_eq_true in Hact. congruence.
  - intros Hdst. apply bool_decide_eq_true. congruence.
Qed.

(** C7.  For a positioning-sample payload, the position updates among the
    notifications the handler creates are: the one message with command
    lh2_position, the hexadecimal source address and the two coordinates when
    a calibration is loaded and the solver returns coordinates; none when no
    calibration is loaded or the solver returns nothing.  The handler calls
    [notify_clients] for none of them itself; once the event loop has run the
    created tasks, it has been called once for each. *)
Theorem position_update_created (payload : ProtocolPayload) (w : World) (key : string) :
  payload_type payload = LH2_RAW_DATA →
  address_key (source (header payload)) = Returned key →
  ∃ (created : list Coroutine) (calls : list Effect),
    pending (handle_received_payload compute_coordinates payload w).2
      = pending w ++ created ∧
    trace (handle_received_payload compute_coordinates payload w).2
      = trace w ++ calls ∧
    notifications calls = [] ∧
    List.filter is_position_update (task_messages created) =
      match calibration (self w) with
      | Some cal =>
          match compute_coordinates (values payload) cal with
          | Some (x, y) =>
              [json_dumps [("cmd", JString "lh2_position"); ("address", JString key);
                           ("x", JNumber x); ("y", JNumber y)]]
          | None => []
          end
      | None => []
      end ∧
    notifications
      (trace (loop_run (length (pending w ++ created))
                (handle_received_payload compute_coordinates payload w).2))
      = notifications (trace w) ++ task_messages (pending w ++ created).
Proof.
  intros Htype Hkey.
  assert (is_command (payload_type payload) = false) as Hcmd by (by rewrite Htype).
  rewrite (handle_telemetry _ _ _ key Hcmd Hkey). cbn [snd pending trace].
  exists (position_tasks compute_coordinates (self w) payload key
          ++ reload_tasks (self w) key), (handler_calls (self w) payload).
  split; [done|]. split; [done|]. split; [apply notifications_handler_calls|].
  split.
  - unfold position_tasks, reload_tasks, task_messages. rewrite Htype.
    rewrite bool_decide_eq_true_2 by done.
    destruct (calibration (self w)) as [cal|];
      [destruct (compute_coordinates (values payload) cal) as [[x y]|]|];
      by destruct (bool_decide (dotbots (self w) !! key = None)).
  - match goal with |- context [loop_run _ ?w1] =>
      pose proof (loop_run_notifications w1) as Hrun; cbn [pending trace] in Hrun
    end.
    rewrite Hrun, notifications_app, notifications_handler_calls, app_nil_r. done.
Qed.

(** C1 (amended).  A telemetry payload from an address that is not a key of
    the fleet state makes the handler create exactly one reload notification
    task, and one from a known address none.  The handler itself sends
    nothing: the task is created before the record is inserted and run by the
    event loop after the handler has returned, so the address is in the fleet
    state of every state the loop then goes through, and the reload is
    observable once the created tasks have run. *)
Theorem reload_created_then_delivered (payload : ProtocolPayload) (w : World) (key : string) :
  is_command (payload_type payload) = false →
  address_key (source (header payload)) = Returned key →
  ∃ (created : list Coroutine) (calls : list Effect),
    (handle_received_payload compute_coordinates payload w).1 = Returned () ∧
    pending (handle_received_payload compute_coordinates payload w).2
      = pending w ++ created ∧
    List.filter is_reload (task_messages created)
      = (if decide (dotbots (self w) !! key = None) then [reload_message] else []) ∧
    trace (handle_received_payload compute_coordinates payload w).2
      = trace w ++ calls ∧
    existsb carries_reload calls = false ∧
    (∀ n : nat,
       is_Some (dotbots (self (loop_run n
         (handle_received_payload compute_coordinates payload w).2)) !! key)) ∧
    (dotbots (self w) !! key = None →
       reload_observable
         (loop_run (length (pending w ++ created))
            (handle_received_payload compute_coordinates payload w).2) = true).
Proof.
  intros Hcmd Hkey. rewrite (handle_telemetry _ _ _ key Hcmd Hkey). cbn [snd].
  exists (position_tasks compute_coordinates (self w) payload key
          ++ reload_tasks (self w) key), (handler_calls (self w) payload).
  split; [done|]. split; [done|]. split; [|split; [done|split; [|split]]].
  - unfold task_messages. rewrite map_app, List.filter_app.
    replace (List.filter is_reload
               (map (λ c, match c with NotifyClients m => m end)
                  (position_tasks compute_coordinates (self w) payload key)))
      with (@nil Message).
    + unfold reload_tasks. case_bool_decide; case_decide; done.
    + unfold position_tasks. destruct (bool_decide _); [|done].
      destruct (calibration _) as [cal|]; [|done].
      by destruct (compute_coordinates _ cal) as [[x y]|].
  - unfold handler_calls. by destruct (verbose _), (bool_decide _), (calibrate _).
  - intros n. rewrite loop_run_self. cbn. rewrite lookup_insert_eq. by eexists.
  - intros Hnew.
    match goal with |- context [loop_run ?n ?w1] =>
      pose proof (loop_run_all w1) as Hall; cbn [pending] in Hall
    end.
    rewrite Hall. unfold reload_observable. cbn [trace self pending].
    rewrite existsb_app. apply orb_true_iff; right.
    rewrite !flat_map_app, !existsb_app.
    apply orb_true_iff; right. apply orb_true_iff; right.
    unfold reload_tasks. by rewrite bool_decide_eq_true_2.
Qed.

End HandlerClaims.

(** C2.  One turn of the eviction loop, on a fleet state that keeps every
    record under its own address: the records left are exactly those that
    are not older than three seconds at the time of the turn, and
    [notify_clients] is called once, with the reload message, when a record
    was removed, and not at all when none was. *)
Theorem eviction_tick (w : World) :
  own_address (dotbots (self w)) →
  ∃ calls : list Effect,
    dotbots (self (_dotbots_update w).2)
      = filter (λ kd, ¬ stale (clock w) kd.2) (dotbots (self w)) ∧
    trace (_dotbots_update w).2 = trace w ++ calls ∧
    notifications calls =
      (if decide (filter (λ kd, stale (clock w) kd.2) (dotbots (self w)) = ∅)
       then [] else [reload_message]).
Proof.
  intros Hown. rewrite (dotbots_update_spec w Hown). cbn zeta.
  pose proof (notifications_task_calls (self w) [NotifyClients reload_message]) as Hn.
  cbn [flat_map task_messages map] in Hn. rewrite app_nil_r in Hn.
  case_decide as Hempty.
  - by exists [Sleep one_second].
  - destruct (gathered_sends (websockets (self w))) as [[]|e].
    + eexists. split; [done|]. split; [done|].
      by rewrite notifications_app, Hn.
    + eexists. split; [done|]. split; [done|]. exact Hn.
Qed.

(** C3 (amended).  [notify_clients] attempts the send on every registered
    handle, whatever happens on the others: each handle on which the send
    succeeds gets the message.  A ConnectionClosedError is swallowed; the
    call returns normally exactly when no handle fails with another
    exception, and raises otherwise. *)
Theorem notify_clients_isolates_closed_connections (message : Message) (w : World) :
  self (notify_clients message w).2 = self w ∧
  trace (notify_clients message w).2
    = trace w ++ Notify message :: flat_map (delivery message) (websockets (self w)) ∧
  (∀ ws, ws ∈ websockets (self w) → send_error ws = None →
     SendText ws message ∈ trace (notify_clients message w).2) ∧
  ((notify_clients message w).1 = Returned () ↔
     ∀ ws e, ws ∈ websockets (self w) → send_error ws = Some e →
             e = ConnectionClosedError).
Proof.
  rewrite notify_clients_spec. cbn [fst snd with_trace self trace].
  split; [done|]. split; [done|]. split.
  - intros ws Hin Hok. apply elem_of_app. right. apply list_elem_of_further.
    apply list_elem_of_In, in_flat_map. exists ws. split; [by apply list_elem_of_In|].
    unfold delivery. rewrite Hok. by left.
  - rewrite gathered_sends_returned, list.Forall_forall. unfold tolerated.
    split; intros H; [intros ws e Hin; by apply H | intros ws Hin e; by apply H].
Qed.

(** C4 (amended).  When the awaited gather raises the SerialInterfaceException
    or SerialException of a failed activity (or a SystemExit), [run] prints
    the exception, cancels each of the six tasks in the order they were
    created, and returns normally: the exception does not reach the caller of
    [run]. *)
Theorem run_fatal_prints_cancels_returns (init : M unit) (exc : ExcClass) (w w1 : World) :
  init w = (Returned (), w1) →
  caught_by fatal_classes exc = true →
  run init (Raised exc) w =
    (Returned (),
     with_trace w1
       [Stdout (PrintException exc); TaskCancel Web; TaskCancel OpenWebbrowser;
        TaskCancel StartSerial; TaskCancel DotbotsUpdate;
        TaskCancel DotbotsTableRefresh; TaskCancel Start]).
Proof. intros Hinit Hc. rewrite (run_spec _ _ _ _ Hinit), Hc. done. Qed.

Section OutboundClaims.
Variable to_bytes : ProtocolPayload → list Z.
Variable hdlc_encode : list Z → list Z.

(** C5 (amended).  [send_payload] leaves the controller as it is and writes
    to the transport at most once: nothing when the destination is not a key
    of the fleet state (it then returns normally, with the world as it was),
    nothing when the serial port has not been opened, and the framed encoding
    of the payload when the destination is known and the port is open; it
    raises only what that write raises. *)
Theorem send_payload_writes (payload : ProtocolPayload) (w : World) (key : string) :
  address_key (destination (header payload)) = Returned key →
  self (send_payload to_bytes hdlc_encode payload w).2 = self w ∧
  trace (send_payload to_bytes hdlc_encode payload w).2 =
    trace w ++
    match dotbots (self w) !! key, serial (self w) with
    | Some _, Some _ => [SerialWrite (hdlc_encode (to_bytes payload))]
    | _, _ => []
    end ∧
  (send_payload to_bytes hdlc_encode payload w).1 =
    match dotbots (self w) !! key, serial (self w) with
    | Some _, Some s =>
        match write_error s with None => Returned () | Some e => Raised e end
    | _, _ => Returned ()
    end ∧
  (dotbots (self w) !! key = None →
     send_payload to_bytes hdlc_encode payload w = (Returned (), w)).
Proof.
  intros Hkey. rewrite (send_payload_spec _ _ _ _ _ Hkey).
  destruct (dotbots (self w) !! key) as [d|].
  - by destruct (serial (self w)) as [s|]; cbn; rewrite ?app_nil_r.
  - cbn. by rewrite app_nil_r.
Qed.

(** C10.  When the destination is a key of the fleet state and the serial
    handle is unset, [send_payload] returns normally and writes nothing: the
    world is as it was. *)
Theorem send_payload_serial_unset (payload : ProtocolPayload) (w : World) (key : string) :
  address_key (destination (header payload)) = Returned key →
  is_Some (dotbots (self w) !! key) →
  serial (self w) = None →
  send_payload to_bytes hdlc_encode payload w = (Returned (), w).
Proof.
  intros Hkey [d Hd] Hserial.
  by rewrite (send_payload_spec _ _ _ _ _ Hkey), Hd, Hserial.
Qed.

End OutboundClaims.

Section ConstructionClaims.
Variable PROTOCOL_VERSION : Z.
Variable pickle_load : list Z → outcome Calibration.

(** C9.  Whatever the calibration directory of the settings, the constructor
    looks the calibration up at /tmp/calibration.out: the path it joins is
    that one, the calibration of the controller it builds is the one it
    builds for any other directory, and, for address settings that parse,
    that calibration is decided by what the file system holds at
    /tmp/calibration.out alone (none when nothing is there, what
    [pickle.load] makes of a regular file, IsADirectoryError for a
    directory). *)
Theorem calibration_dir_ignored (fs : gmap string FsEntry)
    (settings : ControllerSettings) (dir : string) :
  calibration_path (set_calibration_dir dir settings) = "/tmp/calibration.out" ∧
  calibration <$> __init__ PROTOCOL_VERSION pickle_load fs (set_calibration_dir dir settings)
    = calibration <$> __init__ PROTOCOL_VERSION pickle_load fs settings ∧
  (∀ dst src swarm : Z,
     int_base16 (dotbot_address settings) = Returned dst →
     int_base16 (gw_address settings) = Returned src →
     int_base16 (swarm_id settings) = Returned swarm →
     calibration <$> __init__ PROTOCOL_VERSION pickle_load fs
                       (set_calibration_dir dir settings) =
       match fs !! "/tmp/calibration.out" with
       | None => Returned None
       | Some (RegularFile content) => Some <$> pickle_load content
       | Some Directory => Raised IsADirectoryError
       end).
Proof.
  split; [reflexivity|]. split.
  - unfold __init__. rewrite !calibration_path_fixed. cbn [set_calibration_dir
      dotbot_address gw_address swarm_id].
    destruct (int_base16 (dotbot_address settings)); [|done].
    destruct (int_base16 (gw_address settings)); [|done].
    destruct (int_base16 (swarm_id settings)); [|done].
    cbn [mbind outcome_bind].
    destruct (os_path_exists fs "/tmp/calibration.out"); [|done].
    destruct (open_rb fs "/tmp/calibration.out") as [content|]; [|done].
    cbn [mbind outcome_bind]. by destruct (pickle_load content).
  - intros dst src swarm Hdst Hsrc Hswarm. unfold __init__.
    rewrite !calibration_path_fixed. cbn [set_calibration_dir dotbot_address
      gw_address swarm_id]. rewrite Hdst, Hsrc, Hswarm.
    cbn [mbind outcome_bind]. unfold os_path_exists, open_rb.
    destruct (fs !! "/tmp/calibration.out") as [[content|]|] eqn:Hentry.
    + rewrite bool_decide_eq_true_2 by done. cbn [mbind outcome_bind].
      by destruct (pickle_load content).
    + by rewrite bool_decide_eq_true_2.
    + rewrite bool_decide_eq_false_2; [done|]. by intros [? ?].
Qed.

End ConstructionClaims.

(** ** The claims on the example configurations *)

Lemma command_payload_ignored_witness :
  (payload_type move_payload = CMD_MOVE_RAW ∨ payload_type move_payload = CMD_RGB_LED) ∧
  handle_received_payload example_solver move_payload registered_world
    = (Returned (), registered_world) ∧
  dotbots (self (handle_received_payload example_solver move_payload registered_world).2)
    = dotbots (self registered_world).
Proof.
  split; [left; reflexivity|].
  apply (command_payload_ignored example_solver move_payload registered_world).
  left; reflexivity.
Defined.

Lemma inserted_record_stamped_witness :
  is_command (payload_type position_payload) = false ∧
  0 ≤ source (header position_payload) < 2 ^ 64 ∧
  ∃ dotbot : DotBotModel,
    (handle_received_payload example_solver position_payload quiet_world).1
      = Returned () ∧
    dotbots (self (handle_received_payload example_solver position_payload quiet_world).2)
      = <[address dotbot := dotbot]> (dotbots (self quiet_world)) ∧
    address_key (source (header position_payload)) = Returned (address dotbot) ∧
    last_seen dotbot = clock quiet_world ∧
    (active dotbot = true ↔
       int_base16 (address dotbot)
         = Returned (destination (self_header (self quiet_world)))).
Proof.
  split; [reflexivity|]. split; [cbn; lia|].
  apply (inserted_record_stamped example_solver position_payload quiet_world);
    [reflexivity | cbn; lia].
Defined.

Lemma position_update_created_witness :
  payload_type position_payload = LH2_RAW_DATA ∧
  address_key (source (header position_payload)) = Returned "0000000000000001" ∧
  ∃ (created : list Coroutine) (calls : list Effect),
    pending (handle_received_payload example_solver position_payload quiet_world).2
      = pending quiet_world ++ created ∧
    trace (handle_received_payload example_solver position_payload quiet_world).2
      = trace quiet_world ++ calls ∧
    notifications calls = [] ∧
    List.filter is_position_update (task_messages created) =
      match calibration (self quiet_world) with
      | Some cal =>
          match example_solver (values position_payload) cal with
          | Some (x, y) =>
              [json_dumps [("cmd", JString "lh2_position");
                           ("address", JString "0000000000000001");
                           ("x", JNumber x); ("y", JNumber y)]]
          | None => []
          end
      | None => []
      end ∧
    notifications
      (trace (loop_run (length (pending quiet_world ++ created))
                (handle_received_payload example_solver position_payload quiet_world).2))
      = notifications (trace quiet_world) ++ task_messages (pending quiet_world ++ created).
Proof.
  split; [reflexivity|]. split; [reflexivity|].
  apply (position_update_created example_solver position_payload quiet_world
           "0000000000000001"); reflexivity.
Defined.

Lemma reload_created_then_delivered_witness :
  is_command (payload_type position_payload) = false ∧
  address_key (source (header position_payload)) = Returned "0000000000000001" ∧
  ∃ (created : list Coroutine) (calls : list Effect),
    (handle_received_payload example_solver position_payload quiet_world).1
      = Returned () ∧
    pending (handle_received_payload example_solver position_payload quiet_world).2
      = pending quiet_world ++ created ∧
    List.filter is_reload (task_messages created)
      = (if decide (dotbots (self quiet_world) !! "0000000000000001" = None)
         then [reload_message] else []) ∧
    trace (handle_received_payload example_solver position_payload quiet_world).2
      = trace quiet_world ++ calls ∧
    existsb carries_reload calls = false ∧
    (∀ n : nat,
       is_Some (dotbots (self (loop_run n
         (handle_received_payload example_solver position_payload quiet_world).2))
                  !! "0000000000000001")) ∧
    (dotbots (self quiet_world) !! "0000000000000001" = None →
       reload_observable
         (loop_run (length (pending quiet_world ++ created))
            (handle_received_payload example_solver position_payload quiet_world).2)
         = true).
Proof.
  split; [reflexivity|]. split; [reflexivity|].
  apply (reload_created_then_delivered example_solver position_payload quiet_world
           "0000000000000001"); reflexivity.
Defined.

(** C1, as stated, fails on the quiet world: the address is new and the
    reload is delivered, but in no state of the run is the reload observable
    while the address is still missing from the fleet state. *)
Lemma reload_follows_insertion_counterexample :
  dotbots (self quiet_world) !! "0000000000000001" = None ∧
  address_key (source (header position_payload)) = Returned "0000000000000001" ∧
  reload_observable quiet_world = false ∧
  reload_observable
    (loop_run 2 (handle_received_payload example_solver position_payload quiet_world).2)
    = true ∧
  ¬ ∃ n : nat,
      reload_observable
        (loop_run n (handle_received_payload example_solver position_payload quiet_world).2)
        = true ∧
      dotbots (self (loop_run n
        (handle_received_payload example_solver position_payload quiet_world).2))
        !! "0000000000000001" = None.
Proof.
  split; [reflexivity|]. split; [reflexivity|]. split; [reflexivity|].
  split; [by vm_compute|].
  intros (n & _ & Habsent). rewrite loop_run_self in Habsent.
  vm_compute in Habsent. discriminate.
Qed.

Lemma own_address_aging_world : own_address (dotbots (self aging_world)).
Proof.
  cbn. repeat (apply map_Forall_insert_2; [reflexivity|]). apply map_Forall_empty.
Defined.

Lemma eviction_tick_witness :
  own_address (dotbots (self aging_world)) ∧
  ∃ calls : list Effect,
    dotbots (self (_dotbots_update aging_world).2)
      = filter (λ kd, ¬ stale (clock aging_world) kd.2) (dotbots (self aging_world)) ∧
    trace (_dotbots_update aging_world).2 = trace aging_world ++ calls ∧
    notifications calls =
      (if decide (filter (λ kd, stale (clock aging_world) kd.2)
                    (dotbots (self aging_world)) = ∅)
       then [] else [reload_message]).
Proof.
  split; [exact own_address_aging_world|].
  exact (eviction_tick aging_world own_address_aging_world).
Defined.

(** C3, as stated, fails with three observers of which the second fails with
    an exception other than ConnectionClosedError: the call raises it. *)
Lemma notify_clients_raises_counterexample :
  websockets (self crowded_world) = [healthy_observer; broken_observer; other_observer] ∧
  send_error broken_observer = Some RuntimeError ∧
  (notify_clients reload_message crowded_world).1 = Raised RuntimeError ∧
  (notify_clients reload_message crowded_world).1 ≠ Returned ().
Proof. repeat split; try reflexivity. by vm_compute. Qed.

Lemma run_fatal_prints_cancels_returns_witness :
  example_init quiet_world = (Returned (), quiet_world) ∧
  caught_by fatal_classes SerialException = true ∧
  run example_init (Raised SerialException) quiet_world =
    (Returned (),
     with_trace quiet_world
       [Stdout (PrintException SerialException); TaskCancel Web;
        TaskCancel OpenWebbrowser; TaskCancel StartSerial; TaskCancel DotbotsUpdate;
        TaskCancel DotbotsTableRefresh; TaskCancel Start]).
Proof.
  split; [reflexivity|]. split; [reflexivity|].
  apply (run_fatal_prints_cancels_returns example_init SerialException quiet_world quiet_world);
    reflexivity.
Defined.

(** C4, as stated, fails when the serial activity ends with a
    SerialException: [run] returns normally instead of raising it. *)
Lemma run_swallows_serial_failure_counterexample :
  caught_by fatal_classes SerialException = true ∧
  (run example_init (Raised SerialException) quiet_world).1 = Returned () ∧
  (run example_init (Raised SerialException) quiet_world).1 ≠ Raised SerialException.
Proof. repeat split; try reflexivity. by vm_compute. Qed.

Lemma send_payload_writes_witness :
  address_key (destination (header move_payload)) = Returned "0000000000000001" ∧
  self (send_payload example_to_bytes example_hdlc_encode move_payload registered_world).2
    = self registered_world ∧
  trace (send_payload example_to_bytes example_hdlc_encode move_payload registered_world).2 =
    trace registered_world ++
    match dotbots (self registered_world) !! "0000000000000001",
          serial (self registered_world) with
    | Some _, Some _ => [SerialWrite (example_hdlc_encode (example_to_bytes move_payload))]
    | _, _ => []
    end ∧
  (send_payload example_to_bytes example_hdlc_encode move_payload registered_world).1 =
    match dotbots (self registered_world) !! "0000000000000001",
          serial (self registered_world) with
    | Some _, Some s =>
        match write_error s with None => Returned () | Some e => Raised e end
    | _, _ => Returned ()
    end ∧
  (dotbots (self registered_world) !! "0000000000000001" = None →
     send_payload example_to_bytes example_hdlc_encode move_payload registered_world
       = (Returned (), registered_world)).
Proof.
  split; [reflexivity|].
  apply (send_payload_writes example_to_bytes example_hdlc_encode move_payload
           registered_world "0000000000000001"); reflexivity.
Defined.

Lemma calibration_dir_ignored_witness :
  calibration_path (set_calibration_dir "/srv" example_settings) = "/tmp/calibration.out" ∧
  calibration <$> __init__ 1 example_pickle_load calibrated_fs
                    (set_calibration_dir "/srv" example_settings)
    = calibration <$> __init__ 1 example_pickle_load calibrated_fs example_settings ∧
  int_base16 (dotbot_address example_settings) = Returned 1 ∧
  int_base16 (gw_address example_settings) = Returned 2 ∧
  int_base16 (swarm_id example_settings) = Returned 0 ∧
  calibration <$> __init__ 1 example_pickle_load calibrated_fs
                    (set_calibration_dir "/srv" example_settings) =
    match calibrated_fs !! "/tmp/calibration.out" with
    | None => Returned None
    | Some (RegularFile content) => Some <$> example_pickle_load content
    | Some Directory => Raised IsADirectoryError
    end.
Proof.
  destruct (calibration_dir_ignored 1 example_pickle_load calibrated_fs
              example_settings "/srv") as (Hpath & Hsame & Hentry).
  split; [exact Hpath|]. split; [exact Hsame|].
  split; [reflexivity|]. split; [reflexivity|]. split; [reflexivity|].
  exact (Hentry 1 2 0 eq_refl eq_refl eq_refl).
Defined.

(** C5, as stated, fails when the destination is known and the serial port
    was never opened: nothing is written. *)
Lemma send_payload_unopened_serial_counterexample :
  address_key (destination (header move_payload)) = Returned "0000000000000001" ∧
  is_Some (dotbots (self registered_world) !! "0000000000000001") ∧
  serial_writes
    (trace (send_payload example_to_bytes example_hdlc_encode move_payload
              registered_world).2) = [] ∧
  serial_writes
    (trace (send_payload example_to_bytes example_hdlc_encode move_payload
              registered_world).2)
    ≠ [example_hdlc_encode (example_to_bytes move_payload)].
Proof.
  split; [reflexivity|]. split; [by eexists|]. split; [reflexivity|]. by vm_compute.
Qed.

Lemma send_payload_serial_unset_witness :
  address_key (destination (header move_payload)) = Returned "0000000000000001" ∧
  is_Some (dotbots (self registered_world) !! "0000000000000001") ∧
  serial (self registered_world) = None ∧
  send_payload example_to_bytes example_hdlc_encode move_payload registered_world
    = (Returned (), registered_world).
Proof.
  split; [reflexivity|]. split; [eexists; reflexivity|]. split; [reflexivity|].
  apply (send_payload_serial_unset example_to_bytes example_hdlc_encode move_payload
           registered_world "0000000000000001");
    [reflexivity | eexists; reflexivity | reflexivity].
Defined.

(** * Further properties *)

(** ** Addresses and keys *)

Lemma length_hexlify (bs : list Z) :
  String.length (hexlify bs) = (2 * length bs)%nat.
Proof. induction bs as [|b bs IH]; [done|]. cbn [hexlify String.length length]. lia. Qed.

Lemma length_be_bytes (len : nat) (n : Z) : length (be_bytes len n) = len.
Proof. induction len as [|k IH]; [done|]. cbn [be_bytes length]. by rewrite IH. Qed.

Lemma address_key_overflow (a : Z) :
  ¬ (0 ≤ a < 2 ^ 64) → address_key a = Raised OverflowError.
Proof.
  intros Ha. unfold address_key, int_to_bytes.
  replace (256 ^ Z.of_nat 8) with (2 ^ 64) by reflexivity.
  destruct (Z.leb_spec 0 a); destruct (Z.ltb_spec a (2 ^ 64)); try done. lia.
Qed.

Lemma address_key_raises (a : Z) (e : ExcClass) :
  address_key a = Raised e → e = OverflowError ∧ ¬ (0 ≤ a < 2 ^ 64).
Proof.
  intros He. destruct (decide (0 ≤ a < 2 ^ 64)) as [Ha|Ha].
  - destruct (address_key_int a Ha) as (key & Hk & _). congruence.
  - rewrite (address_key_overflow a Ha) in He. by injection He as <-.
Qed.

(** X1.  The key of a 64-bit address is a string of sixteen characters that
    [int(_, 16)] reads back as the address. *)
Theorem address_key_round_trip (a : Z) :
  0 ≤ a < 2 ^ 64 →
  ∃ key : string,
    address_key a = Returned key ∧
    String.length key = 16%nat ∧
    int_base16 key = Returned a.
Proof.
  intros Ha. destruct (address_key_int a Ha) as (key & Hkey & Hint).
  exists key. split; [done|]. split; [|done].
  unfold address_key, int_to_bytes in Hkey.
  destruct (_ && _); [|done]. cbn in Hkey. injection Hkey as <-.
  change (String.length (hexlify (be_bytes 8 a)) = 16%nat).
  by rewrite length_hexlify, length_be_bytes.
Qed.

(** X2.  Two addresses with the same key are the same address: no two
    robots share a record of the fleet state. *)
Theorem address_key_injective (a b : Z) (key : string) :
  address_key a = Returned key →
  address_key b = Returned key →
  a = b.
Proof.
  intros Ha Hb.
  destruct (address_key_inv _ _ Ha) as [_ Hia].
  destruct (address_key_inv _ _ Hb) as [_ Hib]. congruence.
Qed.

(** ** More on received payloads *)

Section HandlerFurther.
Variable compute_coordinates : list Z → Calibration → option (Qc * Qc).

(** When the source address has no key, the handler stops there. *)
Lemma handle_no_key payload w e :
  is_command (payload_type payload) = false →
  address_key (source (header payload)) = Raised e →
  handle_received_payload compute_coordinates payload w =
    (Raised e,
     with_trace w (if verbose (settings (self w))
                   then [Stdout (PrintPayload payload)] else [])).
Proof.
  intros Hcmd Hkey. unfold handle_received_payload. rewrite Hcmd.
  unfold mbind, M_bind, get_self, when, print, lift.
  destruct (verbose (settings (self w))).
  - rewrite emit_with_trace. by rewrite Hkey.
  - unfold mret, M_ret. by rewrite Hkey, with_trace_nil.
Qed.

(** X3.  A telemetry payload whose source address does not fit in 64 bits
    makes the handler raise OverflowError; the controller object and the
    created tasks are as before, and nothing is notified. *)
Theorem handle_source_out_of_range (payload : ProtocolPayload) (w : World) :
  is_command (payload_type payload) = false →
  ¬ (0 ≤ source (header payload) < 2 ^ 64) →
  ∃ calls : list Effect,
    (handle_received_payload compute_coordinates payload w).1 = Raised OverflowError ∧
    self (handle_received_payload compute_coordinates payload w).2 = self w ∧
    pending (handle_received_payload compute_coordinates payload w).2 = pending w ∧
    trace (handle_received_payload compute_coordinates payload w).2 = trace w ++ calls ∧
    notifications calls = [] ∧ sends calls = [].
Proof.
  intros Hcmd Hrange.
  rewrite (handle_no_key _ _ _ Hcmd (address_key_overflow _ Hrange)).
  eexists. repeat split; by destruct (verbose _).
Qed.

(** X4.  A telemetry payload touches one record only, that of its source:
    every other key keeps its record, the keys are those of before and the
    source's, and the rest of the controller object (header, settings,
    serial handle, observers, calibration) and the clock are as before. *)
Theorem handle_touches_source_only (payload : ProtocolPayload) (w : World) (key : string) :
  is_command (payload_type payload) = false →
  address_key (source (header payload)) = Returned key →
  (∀ other : string, other ≠ key →
     dotbots (self (handle_received_payload compute_coordinates payload w).2) !! other
       = dotbots (self w) !! other) ∧
  dom (dotbots (self (handle_received_payload compute_coordinates payload w).2))
    = {[key]} ∪ dom (dotbots (self w)) ∧
  size (dotbots (self (handle_received_payload compute_coordinates payload w).2))
    = (if dotbots (self w) !! key is None
       then S (size (dotbots (self w))) else size (dotbots (self w))) ∧
  self_header (self (handle_received_payload compute_coordinates payload w).2)
    = self_header (self w) ∧
  settings (self (handle_received_payload compute_coordinates payload w).2)
    = settings (self w) ∧
  serial (self (handle_received_payload compute_coordinates payload w).2)
    = serial (self w) ∧
  websockets (self (handle_received_payload compute_coordinates payload w).2)
    = websockets (self w) ∧
  calibration (self (handle_received_payload compute_coordinates payload w).2)
    = calibration (self w) ∧
  clock (handle_received_payload compute_coordinates payload w).2 = clock w.
Proof.
  intros Hcmd Hkey. rewrite (handle_telemetry _ _ _ key Hcmd Hkey).
  cbn [snd self clock set_dotbots dotbots self_header settings serial websockets
       calibration].
  split; [|split; [|split; [|done]]].
  - intros other Hne. by rewrite lookup_insert_ne.
  - apply dom_insert_L.
  - destruct (dotbots (self w) !! key) as [d|] eqn:Hd.
    + rewrite <- (insert_delete_id _ _ _ Hd) at 2.
      rewrite <- insert_delete_eq, !map_size_insert_None by apply lookup_delete_eq.
      done.
    + by rewrite map_size_insert_None.
Qed.

Lemma handle_dom_subseteq payload w :
  dom (dotbots (self w))
    ⊆ dom (dotbots (self (handle_received_payload compute_coordinates payload w).2)).
Proof.
  destruct (is_command (payload_type payload)) eqn:Hcmd.
  - by rewrite handle_command.
  - destruct (address_key (source (header payload))) as [key|e] eqn:Hkey.
    + rewrite (handle_telemetry _ _ _ key Hcmd Hkey). cbn.
      rewrite dom_insert_L. apply union_subseteq_r.
    + by rewrite (handle_no_key _ _ _ Hcmd Hkey).
Qed.

(** X5.  No payload, of any type and with any source, removes a robot: the
    keys of the fleet state before the handler are among those after it,
    also when the handler raises. *)
Theorem handle_never_removes (payload : ProtocolPayload) (w : World) :
  dom (dotbots (self w))
    ⊆ dom (dotbots (self (handle_received_payload compute_coordinates payload w).2)).
Proof. apply handle_dom_subseteq. Qed.

(** X6.  The capture sink gets the samples of a payload exactly once, under
    the path of calibration.csv in the calibration directory, when the
    payload is a positioning-sample batch and capture is enabled, and is not
    called otherwise. *)
Theorem handle_captures (payload : ProtocolPayload) (w : World) (key : string) :
  is_command (payload_type payload) = false →
  address_key (source (header payload)) = Returned key →
  ∃ calls : list Effect,
    trace (handle_received_payload compute_coordinates payload w).2 = trace w ++ calls ∧
    captures calls =
      (if decide (payload_type payload = LH2_RAW_DATA ∧ calibrate (settings (self w)) = true)
       then [(values payload,
              os_path_join (calibration_dir (settings (self w))) "calibration.csv")]
       else []).
Proof.
  intros Hcmd Hkey. rewrite (handle_telemetry _ _ _ key Hcmd Hkey). cbn [snd trace].
  eexists. split; [done|]. unfold handler_calls.
  destruct (verbose _); case_bool_decide as Ht; destruct (calibrate _) eqn:Hc;
    cbn; case_decide as Hd; try done; by destruct Hd; try (exfalso; tauto).
Qed.

(** The invariant [fleet_ok] under insertion of the record the handler
    builds. *)
Lemma fleet_ok_handle payload w :
  fleet_ok (self w) →
  fleet_ok (self (handle_received_payload compute_coordinates payload w).2).
Proof.
  intros Hok. destruct (is_command (payload_type payload)) eqn:Hcmd.
  - by rewrite handle_command.
  - destruct (address_key (source (header payload))) as [key|e] eqn:Hkey.
    + rewrite (handle_telemetry _ _ _ key Hcmd Hkey).
      unfold fleet_ok. cbn. apply map_Forall_insert_2; [|done].
      split; [done|]. by exists (source (header payload)).
    + by rewrite (handle_no_key _ _ _ Hcmd Hkey).
Qed.

End HandlerFurther.

(** ** More on the eviction *)

Lemma fleet_ok_own_address c : fleet_ok c → own_address (dotbots c).
Proof. intros Hok key d Hd. by destruct (Hok key d Hd). Qed.

Lemma fleet_ok_update w :
  fleet_ok (self w) → fleet_ok (self (_dotbots_update w).2).
Proof.
  intros Hok. rewrite dotbots_update_spec by by apply fleet_ok_own_address.
  cbn zeta.
  case_decide; [|destruct (gathered_sends _)]; unfold fleet_ok; cbn;
    intros key x [Hx _]%map_lookup_filter_Some; by apply (Hok key).
Qed.

Lemma stale_filter_idem (now : Qc) (d : gmap string DotBotModel) :
  filter (λ kd, stale now kd.2) (filter (λ kd, ¬ stale now kd.2) d) = ∅.
Proof.
  apply map_eq. intros key. rewrite lookup_empty. apply map_lookup_filter_None.
  destruct (filter (λ kd, ¬ stale now kd.2) d !! key) as [x|] eqn:Hx; [right|by left].
  intros y [= <-]. by apply map_lookup_filter_Some in Hx as [_ Hx].
Qed.

Lemma fresh_filter_idem (now : Qc) (d : gmap string DotBotModel) :
  filter (λ kd, ¬ stale now kd.2) (filter (λ kd, ¬ stale now kd.2) d)
    = filter (λ kd, ¬ stale now kd.2) d.
Proof.
  apply map_eq. intros key.
  destruct (filter (λ kd, ¬ stale now kd.2) d !! key) as [x|] eqn:Hx.
  - apply map_lookup_filter_Some. split; [done|].
    by apply map_lookup_filter_Some in Hx as [_ Hx].
  - apply map_lookup_filter_None. by left.
Qed.

(** X7.  A second turn of the eviction loop at the same clock finds nothing
    to do: it removes no record, calls [notify_clients] for nothing and
    returns normally, whatever the observers. *)
Theorem eviction_tick_idempotent (w : World) :
  own_address (dotbots (self w)) →
  ∃ calls : list Effect,
    (_dotbots_update (_dotbots_update w).2).1 = Returned () ∧
    dotbots (self (_dotbots_update (_dotbots_update w).2).2)
      = dotbots (self (_dotbots_update w).2) ∧
    trace (_dotbots_update (_dotbots_update w).2).2
      = trace (_dotbots_update w).2 ++ calls ∧
    notifications calls = [] ∧ sends calls = [].
Proof.
  intros Hown.
  assert (∃ calls,
    (_dotbots_update w).2 =
      with_trace (with_dotbots w (filter (λ kd, ¬ stale (clock w) kd.2)
                                    (dotbots (self w)))) calls) as [calls Hw1].
  { rewrite (dotbots_update_spec w Hown). cbn zeta.
    case_decide; [|destruct (gathered_sends _)]; by eexists. }
  rewrite Hw1.
  rewrite dotbots_update_spec
    by (cbn; by apply (own_address_filter (λ kd, ¬ stale (clock w) kd.2))).
  cbn [with_trace with_dotbots self clock set_dotbots dotbots]. cbn zeta.
  rewrite stale_filter_idem, decide_True by done.
  exists [Sleep one_second]. cbn. by rewrite fresh_filter_idem.
Qed.

Lemma one_second_not_in_delivery msg wss :
  Sleep one_second ∉ flat_map (delivery msg) wss.
Proof.
  intros Hin. apply list_elem_of_In, in_flat_map in Hin as (ws & _ & Hin).
  unfold delivery in Hin.
  destruct (send_error ws) as [e|]; [destruct (caught_by _ e)|]; cbn in Hin;
    [destruct Hin as [Heq|[]] | destruct Hin | destruct Hin as [Heq|[]]];
    [|done]. injection Heq as Heq. discriminate Heq.
Qed.

(** X8.  A turn of the eviction loop returns normally exactly when no record
    is stale or every observer fails, if at all, with a closed connection.
    Otherwise it raises, though the stale records are gone by then (see
    C2); the loop's sleep of one second is reached exactly when the turn
    returns. *)
Theorem eviction_tick_outcome (w : World) :
  own_address (dotbots (self w)) →
  ∃ calls : list Effect,
    trace (_dotbots_update w).2 = trace w ++ calls ∧
    ((_dotbots_update w).1 = Returned () ↔
       filter (λ kd, stale (clock w) kd.2) (dotbots (self w)) = ∅ ∨
       Forall tolerated (websockets (self w))) ∧
    (Sleep one_second ∈ calls ↔ (_dotbots_update w).1 = Returned ()).
Proof.
  intros Hown. rewrite (dotbots_update_spec w Hown). cbn zeta.
  case_decide as Hempty.
  - exists [Sleep one_second]. cbn. split; [done|]. split; [by split; [left|]|].
    split; [done|]. intros _. apply list_elem_of_here.
  - destruct (gathered_sends (websockets (self w))) as [[]|e] eqn:Hg.
    + eexists. split; [done|]. cbn [fst].
      split; [split; [intros _; right; by apply gathered_sends_returned|done]|].
      split; [done|]. intros _. apply elem_of_app. right. apply list_elem_of_here.
    + eexists. split; [done|]. cbn [fst]. split.
      * split; [done|]. intros [Hnone|Hall]; [done|].
        apply gathered_sends_returned in Hall. congruence.
      * split; [|done]. cbn [task_calls]. intros Hin.
        apply elem_of_cons in Hin as [Heq|Hin]; [done|].
        by apply one_second_not_in_delivery in Hin.
Qed.

(** ** Heard, addressed, forgotten *)

(** The records a turn of the eviction loop leaves. *)
Lemma dotbots_after_update w :
  own_address (dotbots (self w)) →
  dotbots (self (_dotbots_update w).2)
    = filter (λ kd, ¬ stale (clock w) kd.2) (dotbots (self w)).
Proof.
  intros Hown. rewrite (dotbots_update_spec w Hown). cbn zeta.
  by case_decide; [|destruct (gathered_sends _)].
Qed.

Section Lifetime.
Variable to_bytes : ProtocolPayload → list Z.
Variable hdlc_encode : list Z → list Z.
Variable compute_coordinates : list Z → Calibration → option (Qc * Qc).

(** X9.  Once a telemetry payload from an address has been handled and the
    serial port is open, a payload sent to that address is written to the
    transport, framed, exactly once. *)
Theorem heard_then_addressed (payload command : ProtocolPayload) (w : World)
    (key : string) (s : SerialInterface) :
  is_command (payload_type payload) = false →
  address_key (source (header payload)) = Returned key →
  destination (header command) = source (header payload) →
  serial (self w) = Some s →
  trace (send_payload to_bytes hdlc_encode command
           (handle_received_payload compute_coordinates payload w).2).2
    = trace (handle_received_payload compute_coordinates payload w).2
      ++ [SerialWrite (hdlc_encode (to_bytes command))].
Proof.
  intros Hcmd Hkey Hdst Hserial.
  rewrite (send_payload_spec _ _ command _ key) by (by rewrite Hdst).
  rewrite (handle_telemetry _ _ _ key Hcmd Hkey).
  cbn [snd self set_dotbots dotbots serial]. rewrite lookup_insert_eq, Hserial. done.
Qed.

(** X10.  A robot heard at time t0 and not since is still in the fleet state
    after a turn of the eviction loop at time t exactly when t is at most
    t0 + 3; after a later turn, a payload sent to it is discarded. *)
Theorem heard_then_forgotten (payload command : ProtocolPayload) (w : World)
    (key : string) (t : Qc) :
  own_address (dotbots (self w)) →
  is_command (payload_type payload) = false →
  address_key (source (header payload)) = Returned key →
  destination (header command) = source (header payload) →
  (is_Some
     (dotbots (self (_dotbots_update
        (with_clock (handle_received_payload compute_coordinates payload w).2 t)).2)
      !! key)
   ↔ (t ≤ clock w + three_seconds)%Qc) ∧
  ((clock w + three_seconds < t)%Qc →
   send_payload to_bytes hdlc_encode command
     (_dotbots_update
        (with_clock (handle_received_payload compute_coordinates payload w).2 t)).2
   = (Returned (),
      (_dotbots_update
        (with_clock (handle_received_payload compute_coordinates payload w).2 t)).2)).
Proof.
  intros Hown Hcmd Hkey Hdst.
  pose proof (own_address_handle compute_coordinates payload w Hown) as Hown1.
  assert (dotbots (self (_dotbots_update
            (with_clock (handle_received_payload compute_coordinates payload w).2 t)).2)
          !! key
          = if decide (clock w + three_seconds < t)%Qc then None
            else Some (heard w payload key)) as Hlook.
  { rewrite (dotbots_after_update
                (with_clock (handle_received_payload compute_coordinates payload w).2 t)
                Hown1).
    rewrite (handle_telemetry _ _ _ key Hcmd Hkey). cbn.
    case_decide as Hst.
    - apply map_lookup_filter_None. right. intros x Hx.
      rewrite lookup_insert_eq in Hx. injection Hx as <-. cbn. unfold stale. cbn. tauto.
    - apply map_lookup_filter_Some. split; [apply lookup_insert_eq|]. done. }
  split.
  - rewrite Hlook. case_decide as Hst.
    + split; [by intros [? ?]|]. intros Hle. by apply Qcle_not_lt in Hle.
    + split; [|by eexists]. intros _. by apply Qcnot_lt_le.
  - intros Hlate. rewrite (send_payload_spec _ _ command _ key) by (by rewrite Hdst).
    by rewrite Hlook, decide_True.
Qed.

End Lifetime.

(** ** More on the fan-out *)

Lemma gathered_sends_raised wss e :
  gathered_sends wss = Raised e →
  ∃ ws, ws ∈ wss ∧ send_error ws = Some e ∧ e ≠ ConnectionClosedError.
Proof.
  induction wss as [|ws wss IH]; cbn [gathered_sends]; [done|].
  destruct (send_error ws) as [e'|] eqn:Hs.
  - destruct (caught_by _ e') eqn:Hc.
    + intros (x & Hx & H)%IH. exists x. split; [by apply list_elem_of_further|done].
    + intros [= ->]. exists ws. split; [apply list_elem_of_here|]. split; [done|].
      intros ->. by rewrite (proj2 (caught_connection_closed _) eq_refl) in Hc.
  - intros (x & Hx & H)%IH. exists x. split; [by apply list_elem_of_further|done].
Qed.

(** X11.  An exception [notify_clients] raises is one that the send on a
    registered handle raised, and never a ConnectionClosedError: with no
    observer, or with observers that only fail by closed connections, it
    raises nothing. *)
Theorem notify_clients_raises_from_handle (message : Message) (w : World) (e : ExcClass) :
  (notify_clients message w).1 = Raised e →
  ∃ ws : WebSocket,
    ws ∈ websockets (self w) ∧ send_error ws = Some e ∧ e ≠ ConnectionClosedError.
Proof. rewrite notify_clients_spec. cbn [fst]. apply gathered_sends_raised. Qed.

Lemma sends_app evs evs' : sends (evs ++ evs') = sends evs ++ sends evs'.
Proof. unfold sends. by rewrite flat_map_app. Qed.

Lemma slept_app evs evs' : slept (evs ++ evs') = slept evs ++ slept evs'.
Proof. unfold slept. by rewrite flat_map_app. Qed.

(** X12.  One call of [notify_clients] sends the message once for each
    registration of a handle on which the send succeeds (a handle registered
    twice gets it twice), and sleeps a tenth of a second once for each
    registration whose send fails with a closed connection; the list of
    observers is left as it was, closed ones included. *)
Theorem notify_clients_counts (message : Message) (w : World) :
  ∃ calls : list Effect,
    trace (notify_clients message w).2 = trace w ++ calls ∧
    sends calls ≡ₚ
      (λ ws, (ws, message)) <$> filter (λ ws, send_error ws = None) (websockets (self w)) ∧
    slept calls =
      replicate
        (length (filter (λ ws, send_error ws = Some ConnectionClosedError)
                   (websockets (self w))))
        tenth_of_second ∧
    websockets (self (notify_clients message w).2) = websockets (self w).
Proof.
  rewrite notify_clients_spec. cbn [snd with_trace trace self].
  eexists. split; [done|]. split; [|split; [|done]].
  - cbn [sends flat_map app]. fold (sends (flat_map (delivery message) (websockets (self w)))).
    induction (websockets (self w)) as [|ws wss IH]; [done|].
    cbn [flat_map]. rewrite sends_app, filter_cons, IH. unfold delivery.
    destruct (send_error ws) as [e|]; [destruct (caught_by _ e)|];
      case_decide; try done.
  - cbn [slept flat_map app]. fold (slept (flat_map (delivery message) (websockets (self w)))).
    induction (websockets (self w)) as [|ws wss IH]; [done|].
    cbn [flat_map]. rewrite slept_app, filter_cons, IH. unfold delivery.
    destruct (send_error ws) as [e|] eqn:Hs.
    + destruct (caught_by _ e) eqn:Hc.
      * apply caught_connection_closed in Hc as ->. by rewrite decide_True.
      * rewrite decide_False; [done|]. intros [= ->].
        by rewrite (proj2 (caught_connection_closed _) eq_refl) in Hc.
    + by rewrite decide_False.
Qed.

(** ** More on the top-level run *)

Lemma cancelled_cancel_all tasks : cancelled (map TaskCancel tasks) = tasks.
Proof.
  unfold cancelled. induction tasks as [|t tasks IH]; [done|].
  cbn [map flat_map app]. by rewrite IH.
Qed.

Lemma run_init_other init gathered exc w w1 :
  init w = (Raised exc, w1) →
  caught_by fatal_classes exc = false →
  run init gathered w = (Raised exc, w1).
Proof.
  intros Hinit Hc. unfold run, mbind at 1, M_bind at 1.
  unfold try_except at 1. unfold mbind at 1, M_bind at 1. by rewrite Hinit, Hc.
Qed.

(** X13.  [run] cancels its tasks in one case only: [init] returned and the
    awaited gather raised a SerialInterfaceException, a SerialException or a
    SystemExit.  Then all six are cancelled, in the order they were created;
    in every other case none is. *)
Theorem run_cancels_only_on_fatal (init : M unit) (gathered : outcome unit) (w : World) :
  ∃ calls : list Effect,
    trace (run init gathered w).2 = trace (init w).2 ++ calls ∧
    cancelled calls =
      match (init w).1, gathered with
      | Returned _, Raised exc =>
          if caught_by fatal_classes exc
          then [Web; OpenWebbrowser; StartSerial; DotbotsUpdate; DotbotsTableRefresh; Start]
          else []
      | _, _ => []
      end.
Proof.
  destruct (init w) as [[[]|e] w1] eqn:Hinit; cbn [fst snd].
  - rewrite (run_spec _ _ _ _ Hinit). destruct gathered as [[]|exc].
    + exists []. by rewrite app_nil_r.
    + destruct (caught_by fatal_classes exc) eqn:Hc.
      * eexists. split; [done|].
        cbn [cancelled flat_map app]. fold (cancelled (map TaskCancel all_tasks)).
        by rewrite cancelled_cancel_all.
      * exists []. by rewrite app_nil_r.
  - destruct (caught_by fatal_classes e) eqn:Hc.
    + rewrite (run_init_fatal _ _ _ _ _ Hinit Hc). by eexists.
    + rewrite (run_init_other _ _ _ _ _ Hinit Hc). exists []. by rewrite app_nil_r.
Qed.

(** X14.  When [init] raises, [run] does not return: an exception of a class
    its handler names is printed, after which the handler fails on the task
    list that was never bound and [run] raises UnboundLocalError; any other
    exception passes through unprinted. *)
Theorem run_init_failure (init : M unit) (gathered : outcome unit) (w : World)
    (exc : ExcClass) :
  (init w).1 = Raised exc →
  (run init gathered w).1
    = Raised (if caught_by fatal_classes exc then UnboundLocalError else exc) ∧
  trace (run init gathered w).2
    = trace (init w).2
      ++ (if caught_by fatal_classes exc then [Stdout (PrintException exc)] else []).
Proof.
  destruct (init w) as [r w1] eqn:Hinit. cbn [fst snd]. intros ->.
  destruct (caught_by fatal_classes exc) eqn:Hc.
  - by rewrite (run_init_fatal _ _ _ _ _ Hinit Hc).
  - rewrite (run_init_other _ _ _ _ _ Hinit Hc). cbn. by rewrite app_nil_r.
Qed.

(** ** The registry *)

Lemma registered_snoc regs reg :
  registered (regs ++ [reg]) = register_controller reg.1 reg.2 (registered regs).
Proof. unfold registered. by rewrite foldl_app. Qed.

(** X15.  After any sequence of registrations, the factory builds a type
    with the class registered last under it, and raises ControllerException
    for a type that was never registered. *)
Theorem controller_factory_registered (regs : list (string * ControllerClass))
    (type_ : string) (settings : ControllerSettings) :
  controller_factory (registered regs) type_ settings =
    match last (filter (λ reg, reg.1 = type_) regs) with
    | Some reg => reg.2 settings
    | None => Raised ControllerException
    end.
Proof.
  induction regs as [|reg regs IH] using rev_ind; [done|].
  rewrite registered_snoc, filter_app, filter_cons, filter_nil.
  unfold controller_factory, register_controller in *.
  case_decide as Heq.
  - rewrite last_snoc. rewrite Heq. by rewrite lookup_insert_eq.
  - rewrite app_nil_r, lookup_insert_ne by done. exact IH.
Qed.

(** ** More on the construction *)

Lemma int_base16_raises (s : string) (e : ExcClass) :
  int_base16 s = Raised e → e = ValueError.
Proof. unfold int_base16. by repeat case_match; intros [= <-]. Qed.

Section ConstructionFurther.
Variable PROTOCOL_VERSION : Z.
Variable pickle_load : list Z → outcome Calibration.
Variable to_bytes : ProtocolPayload → list Z.
Variable hdlc_encode : list Z → list Z.

(** X16.  When one of the three address settings is not a hexadecimal
    literal, the constructor raises ValueError, whatever the file system
    holds. *)
Theorem init_rejects_bad_address (fs : gmap string FsEntry) (settings : ControllerSettings) :
  int_base16 (dotbot_address settings) = Raised ValueError ∨
  int_base16 (gw_address settings) = Raised ValueError ∨
  int_base16 (swarm_id settings) = Raised ValueError →
  __init__ PROTOCOL_VERSION pickle_load fs settings = Raised ValueError.
Proof.
  intros Hbad. unfold __init__.
  destruct (int_base16 (dotbot_address settings)) as [dst|e1] eqn:H1;
    [|by rewrite (int_base16_raises _ _ H1)].
  destruct (int_base16 (gw_address settings)) as [src|e2] eqn:H2;
    [|by rewrite (int_base16_raises _ _ H2)].
  destruct (int_base16 (swarm_id settings)) as [swarm|e3] eqn:H3;
    [|by rewrite (int_base16_raises _ _ H3)].
  by destruct Hbad as [?|[?|?]].
Qed.

(** X17.  A controller the constructor returns knows no robot, has no serial
    handle and no observer, keeps the settings it was given, and carries the
    header whose destination, source and swarm id are the numbers the three
    address settings denote in base 16. *)
Theorem init_result (fs : gmap string FsEntry) (settings0 : ControllerSettings)
    (c : Controller) :
  __init__ PROTOCOL_VERSION pickle_load fs settings0 = Returned c →
  dotbots c = ∅ ∧ serial c = None ∧ websockets c = [] ∧ settings c = settings0 ∧
  int_base16 (dotbot_address settings0) = Returned (destination (self_header c)) ∧
  int_base16 (gw_address settings0) = Returned (source (self_header c)) ∧
  int_base16 (swarm_id settings0) = Returned (header_swarm_id (self_header c)) ∧
  version (self_header c) = PROTOCOL_VERSION ∧
  fleet_ok c.
Proof.
  unfold __init__, mbind, outcome_bind, mret, outcome_ret.
  destruct (int_base16 (dotbot_address settings0)) as [dst|]; [|done].
  destruct (int_base16 (gw_address settings0)) as [src|]; [|done].
  destruct (int_base16 (swarm_id settings0)) as [swarm|]; [|done].
  repeat case_match; intros [= <-]; cbn; repeat split; try done;
    apply map_Forall_empty.
Qed.

(** X18.  With address settings that parse, the constructor's calibration
    is: none when /tmp/calibration.out does not exist; what [pickle.load]
    makes of the file when it is a regular file, the constructor failing
    with the exception [pickle.load] raises; and the constructor fails with
    IsADirectoryError when the path is a directory. *)
Theorem init_calibration (fs : gmap string FsEntry) (settings : ControllerSettings)
    (dst src swarm : Z) :
  int_base16 (dotbot_address settings) = Returned dst →
  int_base16 (gw_address settings) = Returned src →
  int_base16 (swarm_id settings) = Returned swarm →
  calibration <$> __init__ PROTOCOL_VERSION pickle_load fs settings =
    match fs !! "/tmp/calibration.out" with
    | None => Returned None
    | Some (RegularFile content) => Some <$> pickle_load content
    | Some Directory => Raised IsADirectoryError
    end.
Proof.
  intros H1 H2 H3. unfold __init__. rewrite H1, H2, H3, !calibration_path_fixed.
  cbn [mbind outcome_bind]. unfold os_path_exists, open_rb.
  destruct (fs !! "/tmp/calibration.out") as [[content|]|] eqn:Hf.
  - rewrite bool_decide_eq_true_2 by done. cbn [mbind outcome_bind].
    by destruct (pickle_load content).
  - by rewrite bool_decide_eq_true_2.
  - rewrite bool_decide_eq_false_2; [done|]. by intros [? ?].
Qed.

(** X19.  A controller fresh from its constructor writes nothing to the
    transport, whatever payload it is asked to send to a 64-bit
    destination, and its first turn of the eviction loop removes and
    notifies nothing. *)
Theorem fresh_controller_inert (fs : gmap string FsEntry) (settings : ControllerSettings)
    (w : World) (payload : ProtocolPayload) :
  __init__ PROTOCOL_VERSION pickle_load fs settings = Returned (self w) →
  0 ≤ destination (header payload) < 2 ^ 64 →
  send_payload to_bytes hdlc_encode payload w = (Returned (), w) ∧
  _dotbots_update w = (Returned (), with_trace w [Sleep one_second]).
Proof.
  intros Hinit Hrange. destruct (init_dotbots _ _ _ _ _ Hinit) as (Hd & Hs & Hw).
  destruct (address_key_int _ Hrange) as (key & Hkey & _).
  split.
  - by rewrite (send_payload_spec _ _ _ _ key Hkey), Hd, lookup_empty.
  - rewrite dotbots_update_spec by (rewrite Hd; apply own_address_empty).
    cbn zeta. rewrite Hd, !map_filter_empty, decide_True by done.
    by rewrite <- Hd, with_dotbots_same.
Qed.

End ConstructionFurther.

(** ** Waiting for the web server *)

Lemma wait_for_server_spec attempts :
  wait_for_server attempts =
    match list_find (λ a, a ≠ Some ConnectionRefusedError) attempts with
    | None => (None, replicate (length attempts) (ProbeSleep tenth_of_second))
    | Some (i, None) =>
        (Some (Returned ()), replicate i (ProbeSleep tenth_of_second) ++ [WriterClose])
    | Some (i, Some e) => (Some (Raised e), replicate i (ProbeSleep tenth_of_second))
    end.
Proof.
  induction attempts as [|a attempts IH]; [done|].
  cbn [wait_for_server list_find]. destruct a as [e|].
  - destruct (caught_by [ConnectionRefusedError] e) eqn:Hc.
    + assert (e = ConnectionRefusedError) as ->.
      { unfold caught_by, issubclass in Hc; cbn [existsb] in Hc.
        rewrite orb_false_r in Hc. apply orb_prop in Hc as [Hc|Hc];
          [by apply bool_decide_eq_true in Hc|by destruct e]. }
      rewrite decide_False by (by intros ?). rewrite IH.
      destruct (list_find _ attempts) as [[i [e|]]|]; done.
    + rewrite decide_True; [done|]. intros [= ->]. by vm_compute in Hc.
  - by rewrite decide_True.
Qed.

(** X20.  [_open_webbrowser] sleeps a tenth of a second for every refused
    connection and goes on; at the first attempt that is not refused it
    either closes the connection it got and then opens the browser, once,
    when the settings ask for it, or ends with the exception that attempt
    raised, without opening the browser.  While every attempt is refused it
    keeps waiting and opens nothing. *)
Theorem open_webbrowser_spec (c : Controller) (attempts : list (option ExcClass)) :
  _open_webbrowser c attempts =
    match list_find (λ a, a ≠ Some ConnectionRefusedError) attempts with
    | None => (None, replicate (length attempts) (ProbeSleep tenth_of_second))
    | Some (i, None) =>
        (Some (Returned ()),
         replicate i (ProbeSleep tenth_of_second) ++ [WriterClose]
         ++ (if webbrowser (settings c)
             then [WebbrowserOpen "http://localhost:8000/dotbots"] else []))
    | Some (i, Some e) => (Some (Raised e), replicate i (ProbeSleep tenth_of_second))
    end.
Proof.
  unfold _open_webbrowser. rewrite wait_for_server_spec.
  destruct (list_find _ attempts) as [[i [e|]]|]; [done| |done].
  by rewrite <- app_assoc.
Qed.

(** ** Bytes from the serial port *)

Section IngestionFurther.
Variable H : Type.
Variable hdlc_handle_byte : H → Z → H.
Variable hdlc_ready : H → bool.
Variable hdlc_payload : H → list Z * H.
Variable from_bytes : list Z → outcome ProtocolPayload.
Variable open_serial : string → Z → outcome SerialInterface.
Variable compute_coordinates : list Z → Calibration → option (Qc * Qc).

(** [handle_byte], the receiving loop and [_start_serial] with these
    collaborators. *)
#[local] Abbreviation on_byte :=
  (handle_byte H hdlc_handle_byte hdlc_ready hdlc_payload from_bytes compute_coordinates).
#[local] Abbreviation on_bytes :=
  (handle_bytes H hdlc_handle_byte hdlc_ready hdlc_payload from_bytes compute_coordinates).
#[local] Abbreviation start_serial :=
  (_start_serial H hdlc_handle_byte hdlc_ready hdlc_payload from_bytes open_serial
     compute_coordinates).

(** What a byte does to the world: nothing, or what the handler does with
    the payload of the frame the byte completes. *)
Lemma handle_byte_world r byte :
  world (on_byte r byte).2 = world r ∨
  ∃ frame parsed,
    (hdlc_payload (hdlc_handle_byte (hdlc_handler r) byte)).1 = frame ∧
    hdlc_ready (hdlc_handle_byte (hdlc_handler r) byte) = true ∧
    frame ≠ [] ∧ from_bytes frame = Returned parsed ∧
    (on_byte r byte).1
      = (handle_received_payload compute_coordinates parsed (world r)).1 ∧
    world (on_byte r byte).2
      = (handle_received_payload compute_coordinates parsed (world r)).2.
Proof.
  unfold handle_byte.
  destruct (hdlc_ready _) eqn:Hready; [|by left].
  destruct (hdlc_payload _) as [frame h'] eqn:Hp.
  case_bool_decide as Hnil; [by left|].
  destruct (from_bytes frame) as [parsed|e] eqn:Hparse.
  - right. exists frame, parsed.
    by destruct (handle_received_payload _ parsed (world r)) as [res w'] eqn:Hh.
  - left. by destruct (caught_by _ e).
Qed.

(** X21.  A byte changes the fleet state only when it completes a non-empty
    frame that the parser accepts as a payload other than a movement or LED
    command. *)
Theorem handle_byte_changes_fleet (r : Receiver H) (byte : Z) :
  dotbots (self (world (on_byte r byte).2)) ≠ dotbots (self (world r)) →
  ∃ (frame : list Z) (parsed : ProtocolPayload),
    hdlc_ready (hdlc_handle_byte (hdlc_handler r) byte) = true ∧
    (hdlc_payload (hdlc_handle_byte (hdlc_handler r) byte)).1 = frame ∧
    frame ≠ [] ∧
    from_bytes frame = Returned parsed ∧
    is_command (payload_type parsed) = false.
Proof.
  intros Hchg.
  destruct (handle_byte_world r byte) as [Hw|(frame & parsed & Hf & Hr & Hne & Hp & _ & Hw)].
  - by rewrite Hw in Hchg.
  - exists frame, parsed. repeat split; try done.
    destruct (is_command (payload_type parsed)) eqn:Hcmd; [|done].
    rewrite Hw, handle_command in Hchg by done. done.
Qed.

Lemma handle_byte_raises r byte e :
  (on_byte r byte).1 = Raised e →
  e = OverflowError ∨
  ∃ frame, from_bytes frame = Raised e ∧
           caught_by [ProtocolPayloadParserException] e = false.
Proof.
  unfold handle_byte.
  destruct (hdlc_ready _) eqn:Hready; [|done].
  destruct (hdlc_payload _) as [frame h'] eqn:Hp.
  case_bool_decide as Hnil; [done|].
  destruct (from_bytes frame) as [parsed|e'] eqn:Hparse.
  - destruct (handle_received_payload _ parsed (world r)) as [res w'] eqn:Hh.
    cbn. intros ->. left.
    destruct (is_command (payload_type parsed)) eqn:Hcmd.
    + by rewrite handle_command in Hh.
    + destruct (address_key (source (header parsed))) as [key|e''] eqn:Hkey.
      * by rewrite (handle_telemetry _ _ _ key Hcmd Hkey) in Hh.
      * rewrite (handle_no_key _ _ _ _ Hcmd Hkey) in Hh. injection Hh as <- _.
        by destruct (address_key_raises _ _ Hkey).
  - destruct (caught_by _ e') eqn:Hc; [done|]. cbn. intros [= <-]. right. eauto.
Qed.

(** X22.  The receiving loop never ends on a frame the parser rejects with
    ProtocolPayloadParserException: whatever the bytes, an exception that
    ends it is one the parser raised of another class, or the OverflowError
    of a source address beyond 64 bits. *)
Theorem handle_bytes_raises (r : Receiver H) (bytes : list Z) (e : ExcClass) :
  (on_bytes r bytes).1 = Raised e →
  e = OverflowError ∨
  ∃ frame : list Z,
    from_bytes frame = Raised e ∧ e ≠ ProtocolPayloadParserException.
Proof.
  revert r. induction bytes as [|byte bytes IH]; intros r; cbn [handle_bytes];
    [done|].
  destruct (on_byte r byte) as [[[]|e'] r'] eqn:Hb.
  - apply IH.
  - cbn. intros [= <-].
    destruct (handle_byte_raises r byte e') as [?|(frame & Hf & Hc)];
      [by rewrite Hb|by left|].
    right. exists frame. split; [done|]. intros ->. by vm_compute in Hc.
Qed.

Lemma handle_preserves_serial payload w :
  serial (self (handle_received_payload compute_coordinates payload w).2)
    = serial (self w).
Proof.
  destruct (is_command (payload_type payload)) eqn:Hcmd.
  - by rewrite handle_command.
  - destruct (address_key (source (header payload))) as [key|e] eqn:Hkey.
    + by rewrite (handle_telemetry _ _ _ key Hcmd Hkey).
    + by rewrite (handle_no_key _ _ _ _ Hcmd Hkey).
Qed.

Lemma handle_bytes_serial bytes : ∀ r,
  serial (self (world (on_bytes r bytes).2)) = serial (self (world r)).
Proof.
  induction bytes as [|byte bytes IH]; intros r; cbn [handle_bytes]; [done|].
  assert (serial (self (world (on_byte r byte).2)) = serial (self (world r))) as Hs.
  { destruct (handle_byte_world r byte)
      as [->|(frame & parsed & _ & _ & _ & _ & _ & ->)]; [done|].
    apply handle_preserves_serial. }
  destruct (on_byte r byte) as [[[]|e'] r'] eqn:Hb; cbn [snd] in *; [|done].
  by rewrite IH.
Qed.

Lemma handle_byte_fleet_ok r byte :
  fleet_ok (self (world r)) →
  fleet_ok (self (world (on_byte r byte).2)) ∧
  dom (dotbots (self (world r))) ⊆ dom (dotbots (self (world (on_byte r byte).2))).
Proof.
  intros Hok.
  destruct (handle_byte_world r byte) as [->|(frame & parsed & _ & _ & _ & _ & _ & ->)];
    [done|].
  split; [by apply fleet_ok_handle|apply handle_dom_subseteq].
Qed.

Lemma handle_bytes_fleet_ok bytes : ∀ r,
  fleet_ok (self (world r)) →
  fleet_ok (self (world (on_bytes r bytes).2)) ∧
  dom (dotbots (self (world r))) ⊆ dom (dotbots (self (world (on_bytes r bytes).2))).
Proof.
  induction bytes as [|byte bytes IH]; intros r Hok; cbn [handle_bytes]; [done|].
  destruct (handle_byte_fleet_ok r byte Hok) as (Hok1 & Hdom1).
  destruct (on_byte r byte) as [[[]|e'] r'] eqn:Hb; cbn [snd] in *; [|done].
  destruct (IH r' Hok1) as (Hok2 & Hdom2).
  split; [done|by etrans].
Qed.

(** X23.  Whatever bytes arrive, and whether or not the receiving loop ends
    with an exception, the fleet state stays well formed (each record under
    the key of its own 64-bit address, its active flag telling whether that
    address is the controller's destination) and loses no robot. *)
Theorem handle_bytes_keeps_fleet (r : Receiver H) (bytes : list Z) :
  fleet_ok (self (world r)) →
  fleet_ok (self (world (on_bytes r bytes).2)) ∧
  dom (dotbots (self (world r))) ⊆ dom (dotbots (self (world (on_bytes r bytes).2))).
Proof. intros Hok. by apply handle_bytes_fleet_ok. Qed.

(** X24.  [_start_serial] handles no byte when the serial port cannot be
    opened: it raises what the opening raised and leaves everything as it
    was.  When the port opens, the controller holds its handle from then
    on, whatever bytes follow. *)
Theorem start_serial_opens (r : Receiver H) (bytes : list Z) :
  match open_serial (port (settings (self (world r))))
                    (baudrate (settings (self (world r)))) with
  | Raised e => start_serial r bytes = (Raised e, r)
  | Returned s => serial (self (world (start_serial r bytes).2)) = Some s
  end.
Proof.
  unfold _start_serial. destruct (open_serial _ _) as [s|e]; [|done].
  by rewrite handle_bytes_serial.
Qed.

End IngestionFurther.

(** ** The table of known robots *)

Lemma add_rows_spec c ds : ∀ idx,
  Forall (λ dotbot, ∃ a, address_key a = Returned (address dotbot) ∧
                         active dotbot = bool_decide (a = destination (self_header c))) ds →
  add_rows c idx ds
    = Returned (imap (λ i dotbot, CellText (ljust4 (pretty (idx + i)%nat)) :: shown dotbot) ds).
Proof.
  induction ds as [|d ds IH]; intros idx Hds; [done|].
  apply list.Forall_cons in Hds as [(a & Hkey & Hact) Hds].
  destruct (address_key_inv _ _ Hkey) as [_ Hint].
  cbn [add_rows imap]. unfold table_row. rewrite Hint. cbn [mbind outcome_bind].
  rewrite (IH (S idx) Hds). cbn [mbind outcome_bind mret outcome_ret].
  rewrite <- Hact, Nat.add_0_r. unfold shown. do 2 f_equal.
  apply imap_ext. intros i x _. cbn. by rewrite Nat.add_succ_r.
Qed.

(** X25.  For a well-formed fleet state, [table] does not raise; an empty
    fleet gives a table without columns or rows; otherwise the table has the
    four columns and one row for each robot, the rows are numbered from 0 in
    their order, and each shows the address after 0x, the time the robot was
    last seen and, as True or False, the active flag of its record. *)
Theorem table_shows_fleet (c : Controller) :
  fleet_ok c →
  ∃ t : Table,
    table c = Returned t ∧
    length (table_rows t) = size (dotbots c) ∧
    (∀ (i : nat) (row : list Cell),
       table_rows t !! i = Some row → row !! 0%nat = Some (CellText (ljust4 (pretty i)))) ∧
    drop 1 <$> table_rows t ≡ₚ shown <$> (map_to_list (dotbots c)).*2 ∧
    table_columns t =
      (if decide (dotbots c = ∅) then []
       else [("#", "cyan"); ("address", "magenta"); ("last seen", "green");
             ("active", "green")]).
Proof.
  intros Hok. unfold table. case_bool_decide as Hempty.
  - eexists. split; [done|]. cbn. rewrite Hempty, decide_True by done.
    by rewrite map_size_empty, map_to_list_empty.
  - rewrite (add_rows_spec c (dict_values (dotbots c)) 0).
    2: { apply list.Forall_forall. intros d Hd.
         unfold dict_values in Hd. apply list_elem_of_fmap in Hd as ([key x] & -> & Hin).
         apply elem_of_map_to_list in Hin. destruct (Hok key x Hin) as (Haddr & a & Hkey & Hact).
         exists a. cbn. by rewrite Haddr. }
    eexists. split; [done|]. cbn [table_rows table_columns].
    rewrite decide_False by done. split; [|split; [|split; [|done]]].
    + rewrite length_imap. unfold dict_values. by rewrite length_fmap, length_map_to_list.
    + intros i row Hrow. rewrite list_lookup_imap in Hrow.
      destruct (dict_values (dotbots c) !! i) as [d|]; [|done].
      cbn in Hrow. by injection Hrow as <-.
    + unfold dict_values. rewrite fmap_imap.
      rewrite (imap_ext _ (const shown)) by done.
      by rewrite imap_const.
Qed.

(** ** More on eviction and the outbound path *)

(** X26.  A turn of the eviction loop adds no robot and changes no record:
    every record of the fleet state after it was there before, unchanged,
    and a well-formed fleet state stays well formed. *)
Theorem eviction_only_removes (w : World) :
  fleet_ok (self w) →
  fleet_ok (self (_dotbots_update w).2) ∧
  (∀ (key : string) (dotbot : DotBotModel),
     dotbots (self (_dotbots_update w).2) !! key = Some dotbot →
     dotbots (self w) !! key = Some dotbot ∧ ¬ stale (clock w) dotbot) ∧
  self_header (self (_dotbots_update w).2) = self_header (self w) ∧
  serial (self (_dotbots_update w).2) = serial (self w) ∧
  websockets (self (_dotbots_update w).2) = websockets (self w).
Proof.
  intros Hok. split; [by apply fleet_ok_update|].
  pose proof (fleet_ok_own_address _ Hok) as Hown.
  rewrite (dotbots_update_spec w Hown). cbn zeta.
  split.
  - intros key d Hd.
    assert (filter (λ kd, ¬ stale (clock w) kd.2) (dotbots (self w)) !! key = Some d) as Hf
      by (by revert Hd; case_decide; [|destruct (gathered_sends _)]).
    by apply map_lookup_filter_Some in Hf.
  - by case_decide; [|destruct (gathered_sends _)].
Qed.

Section OutboundFurther.
Variable to_bytes : ProtocolPayload → list Z.
Variable hdlc_encode : list Z → list Z.

(** X27.  A payload whose destination address does not fit in 64 bits makes
    [send_payload] raise OverflowError before anything is looked up or
    written: the world is as it was. *)
Theorem send_destination_out_of_range (payload : ProtocolPayload) (w : World) :
  ¬ (0 ≤ destination (header payload) < 2 ^ 64) →
  send_payload to_bytes hdlc_encode payload w = (Raised OverflowError, w).
Proof.
  intros Hrange. unfold send_payload, mbind, M_bind, lift.
  by rewrite (address_key_overflow _ Hrange).
Qed.

End OutboundFurther.

(** ** The further properties on the example configurations *)

Lemma address_key_round_trip_witness :
  0 ≤ 1 < 2 ^ 64 ∧
  ∃ key : string,
    address_key 1 = Returned key ∧ String.length key = 16%nat ∧
    int_base16 key = Returned 1.
Proof. split; [lia|]. apply (address_key_round_trip 1). lia. Defined.

Lemma address_key_injective_witness :
  address_key 1 = Returned "0000000000000001" ∧
  address_key (source (header position_payload)) = Returned "0000000000000001" ∧
  1 = source (header position_payload).
Proof.
  split; [reflexivity|]. split; [reflexivity|].
  apply (address_key_injective 1 (source (header position_payload)) "0000000000000001");
    reflexivity.
Defined.

Lemma handle_source_out_of_range_witness :
  is_command (payload_type oversized_payload) = false ∧
  ¬ (0 ≤ source (header oversized_payload) < 2 ^ 64) ∧
  ∃ calls : list Effect,
    (handle_received_payload example_solver oversized_payload quiet_world).1
      = Raised OverflowError ∧
    self (handle_received_payload example_solver oversized_payload quiet_world).2
      = self quiet_world ∧
    pending (handle_received_payload example_solver oversized_payload quiet_world).2
      = pending quiet_world ∧
    trace (handle_received_payload example_solver oversized_payload quiet_world).2
      = trace quiet_world ++ calls ∧
    notifications calls = [] ∧ sends calls = [].
Proof.
  split; [reflexivity|]. split; [cbn; lia|].
  apply (handle_source_out_of_range example_solver oversized_payload quiet_world);
    [reflexivity | cbn; lia].
Defined.

Lemma handle_touches_source_only_witness :
  is_command (payload_type position_payload) = false ∧
  address_key (source (header position_payload)) = Returned "0000000000000001" ∧
  (∀ other : string, other ≠ "0000000000000001" →
     dotbots (self (handle_received_payload example_solver position_payload aging_world).2)
       !! other
       = dotbots (self aging_world) !! other) ∧
  dom (dotbots (self (handle_received_payload example_solver position_payload
                        aging_world).2))
    = {["0000000000000001"]} ∪ dom (dotbots (self aging_world)) ∧
  size (dotbots (self (handle_received_payload example_solver position_payload
                         aging_world).2))
    = (if dotbots (self aging_world) !! "0000000000000001" is None
       then S (size (dotbots (self aging_world))) else size (dotbots (self aging_world))) ∧
  self_header (self (handle_received_payload example_solver position_payload
                       aging_world).2)
    = self_header (self aging_world) ∧
  settings (self (handle_received_payload example_solver position_payload aging_world).2)
    = settings (self aging_world) ∧
  serial (self (handle_received_payload example_solver position_payload aging_world).2)
    = serial (self aging_world) ∧
  websockets (self (handle_received_payload example_solver position_payload aging_world).2)
    = websockets (self aging_world) ∧
  calibration (self (handle_received_payload example_solver position_payload
                       aging_world).2)
    = calibration (self aging_world) ∧
  clock (handle_received_payload example_solver position_payload aging_world).2
    = clock aging_world.
Proof.
  split; [reflexivity|]. split; [reflexivity|].
  apply (handle_touches_source_only example_solver position_payload aging_world
           "0000000000000001"); reflexivity.
Defined.

Lemma handle_captures_witness :
  is_command (payload_type position_payload) = false ∧
  address_key (source (header position_payload)) = Returned "0000000000000001" ∧
  ∃ calls : list Effect,
    trace (handle_received_payload example_solver position_payload quiet_world).2
      = trace quiet_world ++ calls ∧
    captures calls =
      (if decide (payload_type position_payload = LH2_RAW_DATA ∧
                  calibrate (settings (self quiet_world)) = true)
       then [(values position_payload,
              os_path_join (calibration_dir (settings (self quiet_world)))
                "calibration.csv")]
       else []).
Proof.
  split; [reflexivity|]. split; [reflexivity|].
  apply (handle_captures example_solver position_payload quiet_world "0000000000000001");
    reflexivity.
Defined.

Lemma eviction_tick_idempotent_witness :
  own_address (dotbots (self aging_world)) ∧
  ∃ calls : list Effect,
    (_dotbots_update (_dotbots_update aging_world).2).1 = Returned () ∧
    dotbots (self (_dotbots_update (_dotbots_update aging_world).2).2)
      = dotbots (self (_dotbots_update aging_world).2) ∧
    trace (_dotbots_update (_dotbots_update aging_world).2).2
      = trace (_dotbots_update aging_world).2 ++ calls ∧
    notifications calls = [] ∧ sends calls = [].
Proof.
  split; [exact own_address_aging_world|].
  exact (eviction_tick_idempotent aging_world own_address_aging_world).
Defined.

Lemma eviction_tick_outcome_witness :
  own_address (dotbots (self aging_world)) ∧
  ∃ calls : list Effect,
    trace (_dotbots_update aging_world).2 = trace aging_world ++ calls ∧
    ((_dotbots_update aging_world).1 = Returned () ↔
       filter (λ kd, stale (clock aging_world) kd.2) (dotbots (self aging_world)) = ∅ ∨
       Forall tolerated (websockets (self aging_world))) ∧
    (Sleep one_second ∈ calls ↔ (_dotbots_update aging_world).1 = Returned ()).
Proof.
  split; [exact own_address_aging_world|].
  exact (eviction_tick_outcome aging_world own_address_aging_world).
Defined.

Lemma heard_then_addressed_witness :
  is_command (payload_type position_payload) = false ∧
  address_key (source (header position_payload)) = Returned "0000000000000001" ∧
  destination (header move_payload) = source (header position_payload) ∧
  serial (self open_world) = Some example_serial ∧
  trace (send_payload example_to_bytes example_hdlc_encode move_payload
           (handle_received_payload example_solver position_payload open_world).2).2
    = trace (handle_received_payload example_solver position_payload open_world).2
      ++ [SerialWrite (example_hdlc_encode (example_to_bytes move_payload))].
Proof.
  split; [reflexivity|]. split; [reflexivity|]. split; [reflexivity|].
  split; [reflexivity|].
  apply (heard_then_addressed example_to_bytes example_hdlc_encode example_solver
           position_payload move_payload open_world "0000000000000001" example_serial);
    reflexivity.
Defined.

Lemma own_address_quiet_world : own_address (dotbots (self quiet_world)).
Proof. apply map_Forall_empty. Defined.

Lemma heard_then_forgotten_witness :
  own_address (dotbots (self quiet_world)) ∧
  is_command (payload_type position_payload) = false ∧
  address_key (source (header position_payload)) = Returned "0000000000000001" ∧
  destination (header move_payload) = source (header position_payload) ∧
  (is_Some
     (dotbots (self (_dotbots_update
        (with_clock (handle_received_payload example_solver position_payload
                       quiet_world).2 (Q2Qc 20))).2)
      !! "0000000000000001")
   ↔ (Q2Qc 20 ≤ clock quiet_world + three_seconds)%Qc) ∧
  ((clock quiet_world + three_seconds < Q2Qc 20)%Qc →
   send_payload example_to_bytes example_hdlc_encode move_payload
     (_dotbots_update
        (with_clock (handle_received_payload example_solver position_payload
                       quiet_world).2 (Q2Qc 20))).2
   = (Returned (),
      (_dotbots_update
        (with_clock (handle_received_payload example_solver position_payload
                       quiet_world).2 (Q2Qc 20))).2)).
Proof.
  split; [exact own_address_quiet_world|]. split; [reflexivity|].
  split; [reflexivity|]. split; [reflexivity|].
  apply (heard_then_forgotten example_to_bytes example_hdlc_encode example_solver
           position_payload move_payload quiet_world "0000000000000001" (Q2Qc 20));
    [exact own_address_quiet_world | reflexivity | reflexivity | reflexivity].
Defined.

Lemma notify_clients_raises_from_handle_witness :
  (notify_clients reload_message crowded_world).1 = Raised RuntimeError ∧
  ∃ ws : WebSocket,
    ws ∈ websockets (self crowded_world) ∧ send_error ws = Some RuntimeError ∧
    RuntimeError ≠ ConnectionClosedError.
Proof.
  split; [reflexivity|].
  apply (notify_clients_raises_from_handle reload_message crowded_world RuntimeError).
  reflexivity.
Defined.

Lemma run_init_failure_witness :
  (failing_init quiet_world).1 = Raised SerialException ∧
  (run failing_init (Returned ()) quiet_world).1
    = Raised (if caught_by fatal_classes SerialException
              then UnboundLocalError else SerialException) ∧
  trace (run failing_init (Returned ()) quiet_world).2
    = trace (failing_init quiet_world).2
      ++ (if caught_by fatal_classes SerialException
          then [Stdout (PrintException SerialException)] else []).
Proof.
  split; [reflexivity|].
  apply (run_init_failure failing_init (Returned ()) quiet_world SerialException).
  reflexivity.
Defined.

Lemma init_rejects_bad_address_witness :
  (int_base16 (dotbot_address bad_settings) = Raised ValueError ∨
   int_base16 (gw_address bad_settings) = Raised ValueError ∨
   int_base16 (swarm_id bad_settings) = Raised ValueError) ∧
  __init__ 1 example_pickle_load ∅ bad_settings = Raised ValueError.
Proof.
  split; [left; reflexivity|].
  apply (init_rejects_bad_address 1 example_pickle_load ∅ bad_settings).
  left; reflexivity.
Defined.

Lemma init_result_witness :
  __init__ 1 example_pickle_load ∅ example_settings = Returned built_controller ∧
  dotbots built_controller = ∅ ∧ serial built_controller = None ∧
  websockets built_controller = [] ∧ settings built_controller = example_settings ∧
  int_base16 (dotbot_address example_settings)
    = Returned (destination (self_header built_controller)) ∧
  int_base16 (gw_address example_settings)
    = Returned (source (self_header built_controller)) ∧
  int_base16 (swarm_id example_settings)
    = Returned (header_swarm_id (self_header built_controller)) ∧
  version (self_header built_controller) = 1 ∧
  fleet_ok built_controller.
Proof.
  split; [reflexivity|].
  apply (init_result 1 example_pickle_load ∅ example_settings built_controller).
  reflexivity.
Defined.

Lemma init_calibration_witness :
  int_base16 (dotbot_address example_settings) = Returned 1 ∧
  int_base16 (gw_address example_settings) = Returned 2 ∧
  int_base16 (swarm_id example_settings) = Returned 0 ∧
  calibration <$> __init__ 1 example_pickle_load
                    (<["/tmp/calibration.out" := RegularFile [1; 2; 3]]> ∅)
                    example_settings =
    match (<["/tmp/calibration.out" := RegularFile [1; 2; 3]]> ∅ : gmap string FsEntry)
          !! "/tmp/calibration.out" with
    | None => Returned None
    | Some (RegularFile content) => Some <$> example_pickle_load content
    | Some Directory => Raised IsADirectoryError
    end.
Proof.
  split; [reflexivity|]. split; [reflexivity|]. split; [reflexivity|].
  apply (init_calibration 1 example_pickle_load
           (<["/tmp/calibration.out" := RegularFile [1; 2; 3]]> ∅)
           example_settings 1 2 0); reflexivity.
Defined.

Lemma fresh_controller_inert_witness :
  __init__ 1 example_pickle_load ∅ example_settings = Returned (self built_world) ∧
  0 ≤ destination (header move_payload) < 2 ^ 64 ∧
  send_payload example_to_bytes example_hdlc_encode move_payload built_world
    = (Returned (), built_world) ∧
  _dotbots_update built_world = (Returned (), with_trace built_world [Sleep one_second]).
Proof.
  split; [reflexivity|]. split; [cbn; lia|].
  apply (fresh_controller_inert 1 example_pickle_load example_to_bytes
           example_hdlc_encode ∅ example_settings built_world move_payload);
    [reflexivity | cbn; lia].
Defined.

Lemma first_frame_changes_fleet :
  dotbots (self (world
     (handle_byte (list Z) example_hdlc_handle_byte example_hdlc_ready
        example_hdlc_payload example_from_bytes example_solver
        {| hdlc_handler := [4; 1]; unparsed := []; world := quiet_world |} 126).2))
  ≠ dotbots (self (world
      {| hdlc_handler := [4; 1]; unparsed := []; world := quiet_world |})).
Proof.
  intros Heq. apply (f_equal (λ d, d !! "0000000000000001")) in Heq.
  vm_compute in Heq. discriminate Heq.
Defined.

Lemma handle_byte_changes_fleet_witness :
  dotbots (self (world
     (handle_byte (list Z) example_hdlc_handle_byte example_hdlc_ready
        example_hdlc_payload example_from_bytes example_solver
        {| hdlc_handler := [4; 1]; unparsed := []; world := quiet_world |} 126).2))
  ≠ dotbots (self (world
      {| hdlc_handler := [4; 1]; unparsed := []; world := quiet_world |})) ∧
  ∃ (frame : list Z) (parsed : ProtocolPayload),
    example_hdlc_ready (example_hdlc_handle_byte [4; 1] 126) = true ∧
    (example_hdlc_payload (example_hdlc_handle_byte [4; 1] 126)).1 = frame ∧
    frame ≠ [] ∧
    example_from_bytes frame = Returned parsed ∧
    is_command (payload_type parsed) = false.
Proof.
  split; [exact first_frame_changes_fleet|].
  exact (handle_byte_changes_fleet (list Z) example_hdlc_handle_byte example_hdlc_ready
           example_hdlc_payload example_from_bytes example_solver
           {| hdlc_handler := [4; 1]; unparsed := []; world := quiet_world |} 126
           first_frame_changes_fleet).
Defined.

Lemma handle_bytes_raises_witness :
  (handle_bytes (list Z) example_hdlc_handle_byte example_hdlc_ready
     example_hdlc_payload example_from_bytes example_solver
     example_receiver [255; 1; 126]).1 = Raised ValueError ∧
  (ValueError = OverflowError ∨
   ∃ frame : list Z,
     example_from_bytes frame = Raised ValueError ∧
     ValueError ≠ ProtocolPayloadParserException).
Proof.
  split; [reflexivity|].
  apply (handle_bytes_raises (list Z) example_hdlc_handle_byte example_hdlc_ready
           example_hdlc_payload example_from_bytes example_solver
           example_receiver [255; 1; 126] ValueError).
  reflexivity.
Defined.

Lemma fleet_ok_quiet_world : fleet_ok (self quiet_world).
Proof. apply map_Forall_empty. Defined.

Lemma handle_bytes_keeps_fleet_witness :
  fleet_ok (self (world example_receiver)) ∧
  fleet_ok (self (world
     (handle_bytes (list Z) example_hdlc_handle_byte example_hdlc_ready
        example_hdlc_payload example_from_bytes example_solver
        example_receiver [9; 126; 4; 3; 126]).2)) ∧
  dom (dotbots (self (world example_receiver)))
    ⊆ dom (dotbots (self (world
         (handle_bytes (list Z) example_hdlc_handle_byte example_hdlc_ready
            example_hdlc_payload example_from_bytes example_solver
            example_receiver [9; 126; 4; 3; 126]).2))).
Proof.
  split; [exact fleet_ok_quiet_world|].
  exact (handle_bytes_keeps_fleet (list Z) example_hdlc_handle_byte example_hdlc_ready
           example_hdlc_payload example_from_bytes example_solver
           example_receiver [9; 126; 4; 3; 126] fleet_ok_quiet_world).
Defined.

Lemma fleet_ok_aging_world : fleet_ok (self aging_world).
Proof.
  unfold fleet_ok. cbn.
  apply map_Forall_insert_2; [split; [reflexivity|]; by exists 1|].
  apply map_Forall_insert_2; [split; [reflexivity|]; by exists 2|].
  apply map_Forall_singleton. split; [reflexivity|]. by exists 3.
Defined.

Lemma table_shows_fleet_witness :
  fleet_ok (self aging_world) ∧
  ∃ t : Table,
    table (self aging_world) = Returned t ∧
    length (table_rows t) = size (dotbots (self aging_world)) ∧
    (∀ (i : nat) (row : list Cell),
       table_rows t !! i = Some row → row !! 0%nat = Some (CellText (ljust4 (pretty i)))) ∧
    drop 1 <$> table_rows t ≡ₚ shown <$> (map_to_list (dotbots (self aging_world))).*2 ∧
    table_columns t =
      (if decide (dotbots (self aging_world) = ∅) then []
       else [("#", "cyan"); ("address", "magenta"); ("last seen", "green");
             ("active", "green")]).
Proof.
  split; [exact fleet_ok_aging_world|].
  exact (table_shows_fleet (self aging_world) fleet_ok_aging_world).
Defined.

Lemma eviction_only_removes_witness :
  fleet_ok (self aging_world) ∧
  fleet_ok (self (_dotbots_update aging_world).2) ∧
  (∀ (key : string) (dotbot : DotBotModel),
     dotbots (self (_dotbots_update aging_world).2) !! key = Some dotbot →
     dotbots (self aging_world) !! key = Some dotbot ∧ ¬ stale (clock aging_world) dotbot) ∧
  self_header (self (_dotbots_update aging_world).2) = self_header (self aging_world) ∧
  serial (self (_dotbots_update aging_world).2) = serial (self aging_world) ∧
  websockets (self (_dotbots_update aging_world).2) = websockets (self aging_world).
Proof.
  split; [exact fleet_ok_aging_world|].
  exact (eviction_only_removes aging_world fleet_ok_aging_world).
Defined.

Lemma send_destination_out_of_range_witness :
  ¬ (0 ≤ destination (header oversized_payload) < 2 ^ 64) ∧
  send_payload example_to_bytes example_hdlc_encode oversized_payload open_world
    = (Raised OverflowError, open_world).
Proof.
  split; [cbn; lia|].
  apply (send_destination_out_of_range example_to_bytes example_hdlc_encode
           oversized_payload open_world).
  cbn; lia.
Defined.
